(** * Earthquake Visualizer: the data-refresh and filtering pipeline of App.jsx

    A shallow embedding of the logic of [src/App.jsx]: the feed parser inside
    [fetchData], the [filtered] and [stats] memos, the style helpers
    [getColor] and [getRadius], the Reset handler and the loading / error
    life cycle of a fetch; further what is rendered from the state (the
    markers, the recent list and its notes, the error banner, the bounds
    handed to [FitBounds]) and the life cycle of the auto-refresh timer.

    Numbers.  Every number the component handles comes out of a JSON document
    or out of a numeric input box, so it is a finite number; it is modelled
    as a rational [Q].  The comparisons of the source are exact on such
    values, and so is the multiplication by 4 in [getRadius] (where it
    overflows, the result is above 40 either way).  NaN and the infinities
    of the language's number type are left out of the model: JSON has no
    notation for NaN, and no event with such a magnitude passes the
    magnitude test of the filter, after which alone the helpers are called.

    Strings.  A string is a sequence of code units; the model uses Rocq
    strings, whose characters are the code units below 256 (Latin-1), and
    gives [trim], [toLowerCase] and [includes] their behaviour on those. *)

From Stdlib Require Import QArith Qminmax Lqa ZArith List String Ascii Bool Lia.
Import ListNotations.

(** ** The built-ins of the language that the component calls *)

Module JS.

Local Open Scope Q_scope.

(** [x >= y] and [x <= y] on numbers. *)
Definition ge (x y : Q) : bool := Qle_bool y x.
Definition le (x y : Q) : bool := Qle_bool x y.

(** [x >= y] where [x] may be [undefined]: the comparison is then false. *)
Definition ge_undef (x : option Q) (y : Q) : bool :=
  match x with
  | Some v => ge v y
  | None => false
  end.

(** [x ?? d]: the default replaces [null] and [undefined] only. *)
Definition nullish {A : Type} (x : option A) (d : A) : A :=
  match x with
  | Some v => v
  | None => d
  end.

(** [x || 0] on a number: zero is the one falsy value. *)
Definition or_zero (x : Q) : Q := if Qeq_bool x 0 then 0 else x.

(** [s || d] on a string: the empty string is the one falsy value. *)
Definition or_string (s d : string) : string :=
  match s with
  | EmptyString => d
  | _ => s
  end.

(** [Math.max(a, b)] and [Math.min(a, b)]. *)
Definition Math_max (a b : Q) : Q := Qmax a b.
Definition Math_min (a b : Q) : Q := Qmin a b.

(** [Math.max(x, ...xs)] with at least one argument. *)
Fixpoint Math_max_spread (x : Q) (xs : list Q) : Q :=
  match xs with
  | [] => x
  | y :: ys => Math_max_spread (Math_max x y) ys
  end.

(** White space and line terminators among the code units below 256:
    TAB, LF, VT, FF, CR, SP and NBSP. *)
Definition isWhiteSpace (c : ascii) : bool :=
  let n := nat_of_ascii c in
  (Nat.leb 9 n && Nat.leb n 13) || Nat.eqb n 32 || Nat.eqb n 160.

Fixpoint trimStart (s : string) : string :=
  match s with
  | EmptyString => EmptyString
  | String c s' => if isWhiteSpace c then trimStart s' else s
  end.

Fixpoint trimEnd (s : string) : string :=
  match s with
  | EmptyString => EmptyString
  | String c s' =>
      match trimEnd s' with
      | EmptyString => if isWhiteSpace c then EmptyString else String c EmptyString
      | t => String c t
      end
  end.

(** [s.trim()] *)
Definition trim (s : string) : string := trimEnd (trimStart s).

(** Lower case of one code unit below 256: A-Z and the Latin-1 capitals
    U+00C0..U+00DE (the multiplication sign U+00D7 apart) move up by 32. *)
Definition lowerChar (c : ascii) : ascii :=
  let n := nat_of_ascii c in
  if (Nat.leb 65 n && Nat.leb n 90)
     || (Nat.leb 192 n && Nat.leb n 222 && negb (Nat.eqb n 215))
  then ascii_of_nat (n + 32)
  else c.

(** [s.toLowerCase()] *)
Fixpoint toLowerCase (s : string) : string :=
  match s with
  | EmptyString => EmptyString
  | String c s' => String (lowerChar c) (toLowerCase s')
  end.

(** [s.includes(q)]: [q] occurs in [s] at some position. *)
Fixpoint includes (s q : string) : bool :=
  if String.prefix q s then true
  else match s with
       | EmptyString => false
       | String _ s' => includes s' q
       end.

End JS.

(** ** The feed document and the events parsed from it *)

Module Feed.

Local Open Scope string_scope.

(** [f.properties] of a feature; a field is [None] when it is [null] or
    absent from the document. *)
Record properties : Type := mkProperties {
  p_mag : option Q;
  p_place : option string;
  p_time : option Z;
  p_url : option string;
  p_type : option string
}.

(** One feature of the collection.  [f_coordinates] is
    [f.geometry.coordinates], [None] when there is no such array;
    [f_properties] is [None] when the feature has no [properties] object. *)
Record feature : Type := mkFeature {
  f_id : option string;
  f_coordinates : option (list Q);
  f_properties : option properties
}.

(** The flat object that [fetchData] builds for one feature.  The fields
    copied as they are stay optional; [mag] and [place] have defaults. *)
Record event : Type := mkEvent {
  id : option string;
  mag : Q;
  place : string;
  time : option Z;
  url : option string;
  depth : option Q;
  lat : option Q;
  lon : option Q;
  type : option string
}.

(** What the body of the response turns out to be: not JSON at all (the
    promise of [res.json()] rejects with that message), or a document whose
    [features] member is an array or is missing. *)
Inductive body : Type :=
| NotJson (message : string)
| Json (features : option (list feature)).

(** What [fetch] comes back with: a rejected promise, or a response with its
    [ok] flag and its body. *)
Inductive reply : Type :=
| Rejected (message : string)
| Replied (ok : bool) (b : body).

(** The outcome of the [try] block: a value, or a thrown error of which only
    the [message] is ever read. *)
Inductive outcome (A : Type) : Type :=
| Returned (a : A)
| Thrown (message : string).

Arguments Returned {A} a.
Arguments Thrown {A} message.

Definition bind {A B : Type} (m : outcome A) (k : A -> outcome B) : outcome B :=
  match m with
  | Returned a => k a
  | Thrown msg => Thrown msg
  end.

Notation "x <- m ;; k" := (bind m (fun x => k))
  (at level 61, m at next level, right associativity).

(** Reading a member of [undefined] throws a TypeError.  The wording of its
    message is the engine's; nothing depends on it. *)
Definition member {A : Type} (what : string) (x : option A) : outcome A :=
  match x with
  | Some a => Returned a
  | None => Thrown ("Cannot read properties of undefined (reading '" ++ what ++ "')")
  end.

(** The callback of [data.features.map]: lines 56-69. *)
Definition parseFeature (f : feature) : outcome event :=
  coords <- member "coordinates" (f_coordinates f) ;;
  props <- member "mag" (f_properties f) ;;
  Returned {|
    id := f_id f;
    mag := JS.nullish (p_mag props) 0%Q;
    place := JS.nullish (p_place props) "Unknown location";
    time := p_time props;
    url := p_url props;
    depth := nth_error coords 2;
    lat := nth_error coords 1;
    lon := nth_error coords 0;
    type := p_type props
  |}.

(** [Array.prototype.map] with a callback that may throw: the first throw
    aborts the whole map. *)
Fixpoint mapFeatures (fs : list feature) : outcome (list event) :=
  match fs with
  | [] => Returned []
  | f :: rest =>
      e <- parseFeature f ;;
      es <- mapFeatures rest ;;
      Returned (e :: es)
  end.

(** The [try] block of [fetchData]: lines 51-69. *)
Definition tryBlock (r : reply) : outcome (list event) :=
  match r with
  | Rejected msg => Thrown msg
  | Replied ok b =>
      if negb ok then Thrown "Failed to fetch earthquake data"
      else match b with
           | NotJson msg => Thrown msg
           | Json features =>
               fs <- member "map" features ;;
               mapFeatures fs
           end
  end.

End Feed.

(** ** The component: its state, its memos, its helpers and its handlers *)

Module App.

Import Feed.
Local Open Scope string_scope.
Local Open Scope Q_scope.

Inductive ColorMode : Type := severity | depthMode.

(** The [useState] cells of the component. *)
Record State : Type := mkState {
  earthquakes : list event;
  loading : bool;
  error : option string;
  minMag : Q;
  maxMag : Q;
  colorMode : ColorMode;
  query : string;
  autoRefresh : bool
}.

(** The arguments of the [useState] calls, lines 34-43. *)
Definition initial : State := {|
  earthquakes := [];
  loading := true;
  error := None;
  minMag := 0;
  maxMag := 10;
  colorMode := severity;
  query := "";
  autoRefresh := true
|}.

Definition setEarthquakes (v : list event) (s : State) : State :=
  mkState v (loading s) (error s) (minMag s) (maxMag s) (colorMode s) (query s) (autoRefresh s).
Definition setLoading (v : bool) (s : State) : State :=
  mkState (earthquakes s) v (error s) (minMag s) (maxMag s) (colorMode s) (query s) (autoRefresh s).
Definition setError (v : option string) (s : State) : State :=
  mkState (earthquakes s) (loading s) v (minMag s) (maxMag s) (colorMode s) (query s) (autoRefresh s).
Definition setMinMag (v : Q) (s : State) : State :=
  mkState (earthquakes s) (loading s) (error s) v (maxMag s) (colorMode s) (query s) (autoRefresh s).
Definition setMaxMag (v : Q) (s : State) : State :=
  mkState (earthquakes s) (loading s) (error s) (minMag s) v (colorMode s) (query s) (autoRefresh s).
Definition setColorMode (v : ColorMode) (s : State) : State :=
  mkState (earthquakes s) (loading s) (error s) (minMag s) (maxMag s) v (query s) (autoRefresh s).
Definition setQuery (v : string) (s : State) : State :=
  mkState (earthquakes s) (loading s) (error s) (minMag s) (maxMag s) (colorMode s) v (autoRefresh s).
Definition setAutoRefresh (v : bool) (s : State) : State :=
  mkState (earthquakes s) (loading s) (error s) (minMag s) (maxMag s) (colorMode s) (query s) v.

(** *** [fetchData], lines 47-77 *)

(** Up to the first [await]: lines 48-49. *)
Definition fetchStart (s : State) : State :=
  setError None (setLoading true s).

(** From the reply to the end of [finally]: lines 54-76. *)
Definition fetchSettle (r : reply) (s : State) : State :=
  setLoading false
    match tryBlock r with
    | Returned features => setEarthquakes features s
    | Thrown message => setError (Some (JS.or_string message "Unknown error")) s
    end.

(** One whole attempt with nothing happening in between. *)
Definition fetchData (r : reply) (s : State) : State :=
  fetchSettle r (fetchStart s).

(** *** The [filtered] memo, lines 93-98 *)

Definition magInRange (s : State) (e : event) : bool :=
  JS.ge (mag e) (minMag s) && JS.le (mag e) (maxMag s).

Definition placeMatches (q : string) (e : event) : bool :=
  match q with
  | EmptyString => true
  | _ => JS.includes (JS.toLowerCase (place e)) q
  end.

Definition filtered (s : State) : list event :=
  let q := JS.toLowerCase (JS.trim (query s)) in
  filter (placeMatches q) (filter (magInRange s) (earthquakes s)).

(** *** [getColor] and [getRadius], lines 106-127 *)

Definition getColor (s : State) (e : event) : string :=
  match colorMode s with
  | depthMode =>
      if JS.ge_undef (depth e) 300 then "#0b3d91"
      else if JS.ge_undef (depth e) 100 then "#2b77d9"
      else if JS.ge_undef (depth e) 50 then "#5aa0f0"
      else "#9fd0ff"
  | severity =>
      if JS.ge (mag e) 6 then "#b02a2a"
      else if JS.ge (mag e) 5 then "#f97316"
      else if JS.ge (mag e) 4 then "#f59e0b"
      else if JS.ge (mag e) 3 then "#eab308"
      else "#16a34a"
  end.

Definition getRadius (m : Q) : Q :=
  if JS.le m 0 then 4
  else JS.Math_max 4 (JS.Math_min 40 (m * 4)).

(** *** The [stats] memo, lines 130-135 *)

Module Stats.
Record t : Type := mk { count : nat; maxMag : Q }.
End Stats.

(** The guard of line 131 leaves [Math.max] with at least one argument. *)
Definition stats (s : State) : Stats.t :=
  match List.map (fun e => JS.or_zero (mag e)) (earthquakes s) with
  | [] => {| Stats.count := 0; Stats.maxMag := 0 |}
  | m :: ms => {| Stats.count := List.length (earthquakes s);
                  Stats.maxMag := JS.Math_max_spread m ms |}
  end.

(** *** The Reset button, line 201 *)

Definition reset (s : State) : State :=
  setColorMode severity (setQuery "" (setMaxMag 10 (setMinMag 0 s))).

End App.

(** ** The refresh pipeline as a transition system *)

Module Refresh.

Import Feed App.

(** What can happen to a mounted component.  [Start] is a call of
    [fetchData], whoever makes it: the mount effect, a tick of the
    auto-refresh timer or the Refresh button.  [Settle r] is one outstanding
    call receiving its reply and running to the end of [finally].  The other
    actions are the handlers of the controls. *)
Inductive action : Type :=
| Start
| Settle (r : reply)
| ChangeMinMag (v : Q)
| ChangeMaxMag (v : Q)
| ChangeQuery (v : string)
| ChangeColorMode (v : ColorMode)
| ChangeAutoRefresh (v : bool)
| Reset.

(** The state of the component together with two counters that the source
    does not keep: how many calls of [fetchData] are between their start and
    their end, and how many were ever started. *)
Record Config : Type := mkConfig {
  ui : State;
  inFlight : nat;
  started : nat
}.

Definition mounted : Config :=
  {| ui := initial; inFlight := 0; started := 0 |}.

Definition onUi (f : State -> State) (c : Config) : Config :=
  {| ui := f (ui c); inFlight := inFlight c; started := started c |}.

(** One action; a reply can only arrive for a call that is outstanding. *)
Definition step (a : action) (c : Config) : option Config :=
  match a with
  | Start =>
      Some {| ui := fetchStart (ui c);
              inFlight := S (inFlight c);
              started := S (started c) |}
  | Settle r =>
      match inFlight c with
      | O => None
      | S n => Some {| ui := fetchSettle r (ui c);
                       inFlight := n;
                       started := started c |}
      end
  | ChangeMinMag v => Some (onUi (setMinMag v) c)
  | ChangeMaxMag v => Some (onUi (setMaxMag v) c)
  | ChangeQuery v => Some (onUi (setQuery v) c)
  | ChangeColorMode v => Some (onUi (setColorMode v) c)
  | ChangeAutoRefresh v => Some (onUi (setAutoRefresh v) c)
  | Reset => Some (onUi reset c)
  end.

Fixpoint run (trace : list action) (c : Config) : option Config :=
  match trace with
  | [] => Some c
  | a :: rest =>
      match step a c with
      | Some c' => run rest c'
      | None => None
      end
  end.

(** The configurations a mounted component can be in. *)
Inductive reachable : Config -> Prop :=
| reachable_mounted : reachable mounted
| reachable_step a c c' : reachable c -> step a c = Some c' -> reachable c'.

End Refresh.

(** ** The notions the properties are stated with *)

Module Spec.

Import Feed App.
Local Open Scope Q_scope.

(** [q] occurs somewhere inside [s]. *)
Definition contains (s q : string) : Prop :=
  exists before after : string, s = (before ++ q ++ after)%string.

(** The query as the filter uses it: trimmed, then lower-cased. *)
Definition needle (s : State) : string := JS.toLowerCase (JS.trim (query s)).

(** The filtering predicate in the words of the specification. *)
Definition keeps (s : State) (e : event) : Prop :=
  minMag s <= mag e /\ mag e <= maxMag s /\
  (needle s = EmptyString \/ contains (JS.toLowerCase (place e)) (needle s)).

(** The same predicate as one boolean test. *)
Definition keepsb (s : State) (e : event) : bool :=
  Qle_bool (minMag s) (mag e) && Qle_bool (mag e) (maxMag s)
  && (String.eqb (needle s) EmptyString
      || JS.includes (JS.toLowerCase (place e)) (needle s)).

(** [l1] is [l2] with some elements left out, the others in their order. *)
Inductive Subseq {A : Type} : list A -> list A -> Prop :=
| Subseq_nil : Subseq [] []
| Subseq_drop x l1 l2 : Subseq l1 l2 -> Subseq l1 (x :: l2)
| Subseq_keep x l1 l2 : Subseq l1 l2 -> Subseq (x :: l1) (x :: l2).

(** [x] clamped to the interval from [lo] to [hi]. *)
Definition clamp (lo hi x : Q) : Q :=
  if Qlt_le_dec x lo then lo
  else if Qlt_le_dec hi x then hi
  else x.

(** The colour tokens, named by tier. *)
Definition severityTiers : list string :=
  ["#16a34a"; "#eab308"; "#f59e0b"; "#f97316"; "#b02a2a"]%string.
Definition depthTiers : list string :=
  ["#9fd0ff"; "#5aa0f0"; "#2b77d9"; "#0b3d91"]%string.

End Spec.

(** ** Sample data *)

Module Sample.

Import Feed App.
Local Open Scope string_scope.
Local Open Scope Q_scope.

Definition tokyo : event :=
  {| id := Some "us7000aaaa"; mag := 5.2; place := "Tokyo, Japan";
     time := Some 1700000000000%Z; url := None;
     depth := Some 35; lat := Some 35.6; lon := Some 139.7;
     type := Some "earthquake" |}.

Definition reno : event :=
  {| id := Some "nn00880000"; mag := 2.1; place := "Reno, NV";
     time := Some 1700000100000%Z; url := None;
     depth := Some 8; lat := Some 39.5; lon := Some (-119.8);
     type := Some "earthquake" |}.

(** The state after a fetch brought those two events. *)
Definition loaded : State := setLoading false (setEarthquakes [tokyo; reno] initial).

(** A feature without [properties.mag] and without [properties.place]. *)
Definition bare : feature :=
  {| f_id := Some "ak0240000000";
     f_coordinates := Some [-150.1; 61.2; 12.5];
     f_properties := Some (mkProperties None None (Some 1700000200000%Z) None None) |}.

(** A feature with everything in place. *)
Definition full : feature :=
  {| f_id := Some "us7000aaaa";
     f_coordinates := Some [139.7; 35.6; 35];
     f_properties := Some (mkProperties (Some 5.2) (Some "Tokyo, Japan")
                             (Some 1700000000000%Z) None (Some "earthquake")) |}.

Definition goodReply : reply := Replied true (Json (Some [full])).
Definition badStatus : reply := Replied false (NotJson "").
Definition noFeatures : reply := Replied true (Json None).

(** A run: the mount effect starts a fetch, the user moves the lower bound
    while it is outstanding, the reply arrives. *)
Definition firstFetch : list Refresh.action :=
  [Refresh.Start; Refresh.ChangeMinMag 3; Refresh.Settle goodReply].

Definition settled : Refresh.Config :=
  match Refresh.run firstFetch Refresh.mounted with
  | Some c => c
  | None => Refresh.mounted
  end.

End Sample.

(** ** What the component renders from its state *)

Module View.

Import Feed App.
Local Open Scope Q_scope.

(** The objects of the [pointsForBounds] memo. *)
Module Point.
Record t : Type := mk { lat : option Q; lon : option Q }.
End Point.

(** The [pointsForBounds] memo, lines 100-103. *)
Definition pointsForBounds (s : State) : list Point.t :=
  List.map (fun e => {| Point.lat := lat e; Point.lon := lon e |}) (filtered s).

(** The effect of [FitBounds], lines 18-31.  [map] tells whether [useMap]
    gave a map, [points] is the property ([None] when it is not passed).
    The result is the argument of the call of [map.fitBounds], when the call
    is made; whatever that call throws is caught and dropped. *)
Definition FitBounds (map : bool) (points : option (list Point.t))
  : option (list (option Q * option Q)) :=
  if negb map then None
  else match points with
       | None => None
       | Some ps =>
           if Nat.eqb (List.length ps) 0 then None
           else Some (List.map (fun p => (Point.lat p, Point.lon p)) ps)
       end.



(** The error banner, lines 248-250: [error && ...] shows it for a string
    that is not empty. *)
Definition errorBanner (s : State) : option string :=
  match error s with
  | Some (String c m) => Some (String c m)
  | _ => None
  end.



End View.

(** ** The auto-refresh timer *)

Module Timer.

(** The intervals the browser holds for the page, the handle the next
    [setInterval] will return (handles are positive), and
    [refreshIntervalRef.current] ([None] is [null]). *)
Record Timers : Type := mkTimers {
  active : list nat;
  nextHandle : nat;
  current : option nat
}.

Definition setInterval (t : Timers) : nat * Timers :=
  (nextHandle t,
   {| active := nextHandle t :: active t;
      nextHandle := S (nextHandle t);
      current := current t |}).

Definition clearInterval (h : nat) (t : Timers) : Timers :=
  {| active := filter (fun x => negb (Nat.eqb x h)) (active t);
     nextHandle := nextHandle t;
     current := current t |}.

(** The body of the effect of lines 84-91, run with the value of
    [autoRefresh] of that render. *)
Definition effect (autoRefresh : bool) (t : Timers) : Timers :=
  if autoRefresh then
    let (h, t') := setInterval t in
    {| active := active t'; nextHandle := nextHandle t'; current := Some h |}
  else t.

(** The function the effect returns, lines 88-90: it reads the reference
    when it runs; [null] and 0 are falsy. *)
Definition cleanup (t : Timers) : Timers :=
  match current t with
  | Some (S h) => clearInterval (S h) t
  | _ => t
  end.

(** The component as far as the timer goes: the [autoRefresh] cell, whether
    the component is still mounted, the timers, and how many times a tick
    has called [fetchData]. *)
Record Life : Type := mkLife {
  autoRefresh : bool;
  alive : bool;
  timers : Timers;
  ticks : nat
}.

(** After the first render and its effects: [useState(true)], line 43. *)
Definition mounted : Life :=
  {| autoRefresh := true;
     alive := true;
     timers := effect true {| active := []; nextHandle := 1; current := None |};
     ticks := 0 |}.

(** [Toggle v] is the checkbox calling [setAutoRefresh(v)]: the effect is
    run again, after the cleanup of the previous run, only when the value
    changed.  [Replay] is a development build running cleanup and effect
    once more for the same value.  [Unmount] runs the last cleanup.
    [Tick h] is the browser firing interval [h], which it does only for an
    interval it holds. *)
Inductive action : Type :=
| Toggle (v : bool)
| Replay
| Unmount
| Tick (h : nat).

Definition step (a : action) (l : Life) : option Life :=
  match a with
  | Tick h =>
      if existsb (Nat.eqb h) (active (timers l))
      then Some (mkLife (autoRefresh l) (alive l) (timers l) (S (ticks l)))
      else None
  | Toggle v =>
      if negb (alive l) then None
      else if Bool.eqb v (autoRefresh l) then Some l
      else Some (mkLife v true (effect v (cleanup (timers l))) (ticks l))
  | Replay =>
      if negb (alive l) then None
      else Some (mkLife (autoRefresh l) true
                   (effect (autoRefresh l) (cleanup (timers l))) (ticks l))
  | Unmount =>
      if negb (alive l) then None
      else Some (mkLife (autoRefresh l) false (cleanup (timers l)) (ticks l))
  end.

Inductive reachable : Life -> Prop :=
| reachable_mounted : reachable mounted
| reachable_step a l l' : reachable l -> step a l = Some l' -> reachable l'.

End Timer.

(** ** Further notions *)

Module Notions.

Import Feed App.
Local Open Scope Q_scope.

(** A feature the parser can read: it has a coordinate array and a
    [properties] object. *)
Definition readable (f : feature) : Prop :=
  f_coordinates f <> None /\ f_properties f <> None.

Definition readableb (f : feature) : bool :=
  match f_coordinates f, f_properties f with
  | Some _, Some _ => true
  | _, _ => false
  end.

(** The number of a colour token in a list of tiers, lowest tier first. *)
Fixpoint tierOf (tiers : list string) (token : string) : nat :=
  match tiers with
  | [] => 0
  | t :: rest => if String.eqb t token then 0 else S (tierOf rest token)
  end.

(** The four criteria. *)
Definition criteria (s : State) : Q * Q * string * ColorMode :=
  (minMag s, maxMag s, query s, colorMode s).

(** The cells that only [fetchData] writes. *)
Definition fetched (s : State) : list event * bool * option string :=
  (earthquakes s, loading s, error s).

(** The actions that are steps of [fetchData]. *)
Definition isFetchStep (a : Refresh.action) : bool :=
  match a with
  | Refresh.Start | Refresh.Settle _ => true
  | _ => false
  end.

Definition allWhiteSpace (s : string) : Prop :=
  Forall (fun c => JS.isWhiteSpace c = true) (list_ascii_of_string s).

End Notions.

(** ** More sample data *)

Module Cases.

Import Feed App.
Local Open Scope string_scope.
Local Open Scope Q_scope.

(** A feature without a [properties] object. *)
Definition broken : feature :=
  {| f_id := Some "ci00000001";
     f_coordinates := Some [-117.5; 35.7; 4.2];
     f_properties := None |}.

(** A feature whose coordinate array stops after the latitude. *)
Definition flat : feature :=
  {| f_id := Some "hv00000002";
     f_coordinates := Some [-155.3; 19.4];
     f_properties := Some (mkProperties (Some 1.8) (Some "Volcano, Hawaii")
                             None None (Some "earthquake")) |}.

(** A document with one unreadable feature among readable ones. *)
Definition mixedReply : reply :=
  Replied true (Json (Some [Sample.full; broken; Sample.bare])).

Definition twoReply : reply :=
  Replied true (Json (Some [Sample.bare; Sample.full])).

(** An event below zero, as the feed has them for tiny quakes. *)
Definition tiny : event :=
  {| id := Some "ak0240000003"; mag := -0.4; place := "Central Alaska";
     time := None; url := None;
     depth := Some 120; lat := Some 63.1; lon := Some (-151.2);
     type := Some "earthquake" |}.

Definition three : State :=
  setLoading false (setEarthquakes [Sample.tokyo; tiny; Sample.reno] initial).

(** The timer after the switch was turned off and on again. *)
Definition retoggled : Timer.Life :=
  match Timer.step (Timer.Toggle false) Timer.mounted with
  | Some l1 =>
      match Timer.step (Timer.Toggle true) l1 with
      | Some l2 => l2
      | None => l1
      end
  | None => Timer.mounted
  end.

Definition switchedOff : Timer.Life :=
  match Timer.step (Timer.Toggle false) Timer.mounted with
  | Some l1 => l1
  | None => Timer.mounted
  end.

End Cases.

(** ** Properties *)

Import Feed App Refresh Spec.

(** *** Strings *)

Section StringFacts.

Local Open Scope string_scope.

Lemma prefix_append (q s : string) :
  String.prefix q s = true <-> exists rest, s = q ++ rest.
Proof.
  revert s; induction q as [|c q IH]; intros s.
  - split; [intros _; now exists s | intros _; destruct s; reflexivity].
  - destruct s as [|d s]; simpl.
    + split; [discriminate | intros [rest H]; discriminate].
    + destruct (ascii_dec c d) as [->|Hcd].
      * rewrite IH. split; intros [rest H]; exists rest.
        -- now rewrite H.
        -- now injection H.
      * split; [discriminate | intros [rest H]; injection H; congruence].
Qed.

Lemma includes_contains (s q : string) :
  JS.includes s q = true <-> contains s q.
Proof.
  unfold contains. induction s as [|c s IH].
  - cbn [JS.includes].
    destruct (String.prefix q "") eqn:Hp.
    + split; [intros _ | reflexivity].
      apply prefix_append in Hp. destruct Hp as [rest H].
      exists "", rest. exact H.
    + split; [discriminate|].
      intros [before [after H]].
      destruct before; [|discriminate]. simpl in H.
      assert (String.prefix q "" = true) by (apply prefix_append; eauto).
      congruence.
  - cbn [JS.includes].
    destruct (String.prefix q (String c s)) eqn:Hp.
    + split; [intros _ | reflexivity].
      apply prefix_append in Hp. destruct Hp as [rest H].
      exists "", rest. exact H.
    + rewrite IH. split.
      * intros [before [after H]]. exists (String c before), after.
        simpl. now rewrite H.
      * intros [before [after H]]. destruct before as [|b before].
        -- simpl in H.
           assert (String.prefix q (String c s) = true)
             by (apply prefix_append; eauto).
           congruence.
        -- simpl in H. injection H as _ H. eauto.
Qed.

End StringFacts.

(** *** Lists *)

Section ListFacts.

Context {A : Type}.

Lemma Subseq_filter (p : A -> bool) (l : list A) : Subseq (filter p l) l.
Proof.
  induction l as [|x l IH]; simpl.
  - constructor.
  - destruct (p x); constructor; assumption.
Qed.

Lemma filter_filter (p q : A -> bool) (l : list A) :
  filter q (filter p l) = filter (fun x => p x && q x) l.
Proof.
  induction l as [|x l IH]; simpl; [reflexivity|].
  destruct (p x); simpl; [destruct (q x)|]; now rewrite IH.
Qed.

Lemma Subseq_incl (l1 l2 : list A) : Subseq l1 l2 -> incl l1 l2.
Proof.
  induction 1 as [|x l1 l2 _ IH|x l1 l2 _ IH]; intros y Hy.
  - exact Hy.
  - right. now apply IH.
  - destruct Hy as [->|Hy]; [now left | right; now apply IH].
Qed.

End ListFacts.

(** *** The filter *)

Lemma placeMatches_includes (q : string) (e : event) :
  placeMatches q e = (String.eqb q EmptyString || JS.includes (JS.toLowerCase (place e)) q).
Proof. destruct q; reflexivity. Qed.

Lemma keepsb_keeps (s : State) (e : event) : keepsb s e = true <-> keeps s e.
Proof.
  unfold keepsb, keeps.
  rewrite !andb_true_iff, orb_true_iff, !Qle_bool_iff, String.eqb_eq,
    includes_contains.
  tauto.
Qed.

Lemma filtered_as_one_filter (s : State) :
  filtered s = filter (keepsb s) (earthquakes s).
Proof.
  unfold filtered. rewrite filter_filter.
  apply filter_ext. intros e.
  unfold keepsb, magInRange, JS.ge, JS.le, needle.
  now rewrite placeMatches_includes.
Qed.

Lemma In_filtered (s : State) (e : event) :
  In e (filtered s) <-> In e (earthquakes s) /\ keeps s e.
Proof. rewrite filtered_as_one_filter, filter_In, keepsb_keeps. tauto. Qed.

(** C1.  Whatever the raw list and the criteria, the filtered list is the
    raw list with exactly the events kept whose magnitude lies between
    [minMag] and [maxMag] and whose lower-cased place contains the trimmed,
    lower-cased query (or the query is then empty); each of its elements is
    an element of the raw list, and the elements stand in the order they had
    in the raw list. *)
Theorem filtered_exactly (s : State) :
  filtered s = filter (keepsb s) (earthquakes s)
  /\ (forall e, keepsb s e = true <-> keeps s e)
  /\ (forall e, In e (filtered s) <-> In e (earthquakes s) /\ keeps s e)
  /\ incl (filtered s) (earthquakes s)
  /\ Subseq (filtered s) (earthquakes s).
Proof.
  pose proof (filtered_as_one_filter s) as Heq.
  split; [exact Heq|].
  split; [intros e; apply keepsb_keeps|].
  split; [|split].
  - intros e. apply In_filtered.
  - rewrite Heq. apply Subseq_incl, Subseq_filter.
  - rewrite Heq. apply Subseq_filter.
Qed.

Lemma filter_nothing {A : Type} (p : A -> bool) (l : list A) :
  (forall x, In x l -> p x = false) -> filter p l = [].
Proof.
  induction l as [|x l IH]; intros H; simpl; [reflexivity|].
  rewrite (H x (or_introl eq_refl)). apply IH.
  intros y Hy. apply H. now right.
Qed.

(** C9.  When the lower bound of the criteria is above the upper bound, the
    filtered list is empty, whatever the raw list: an ordinary result of the
    total function [filtered], which has no failure to report. *)
Theorem inverted_range_filters_nothing (s : State) :
  (maxMag s < minMag s)%Q -> filtered s = [].
Proof.
  intros Hlt. rewrite filtered_as_one_filter.
  apply filter_nothing. intros e _.
  destruct (keepsb s e) eqn:Hk; [|reflexivity].
  apply keepsb_keeps in Hk. destruct Hk as [Hlo [Hhi _]].
  exfalso. apply (Qlt_not_le _ _ Hlt). now apply Qle_trans with (mag e).
Qed.

Lemma inverted_range_witness :
  let s := setMaxMag 3 (setMinMag 7 Sample.loaded) in
  (maxMag s < minMag s)%Q /\ filtered s = [].
Proof.
  cbv zeta. split.
  - reflexivity.
  - apply inverted_range_filters_nothing. reflexivity.
Defined.

(** *** The summary statistics *)

Section MaxFacts.

Local Open Scope Q_scope.

Lemma Math_max_cases (a b : Q) :
  (JS.Math_max a b = a /\ b <= a) \/ (JS.Math_max a b = b /\ a <= b).
Proof.
  unfold JS.Math_max, Qmax, GenericMinMax.gmax.
  destruct (a ?= b) eqn:Hc.
  - left. split; [reflexivity|]. apply Qeq_alt in Hc. rewrite Hc. apply Qle_refl.
  - right. split; [reflexivity|]. apply Qlt_alt in Hc. now apply Qlt_le_weak.
  - left. split; [reflexivity|]. apply Qgt_alt in Hc. now apply Qlt_le_weak.
Qed.

Lemma Math_max_spread_In (x : Q) (xs : list Q) :
  In (JS.Math_max_spread x xs) (x :: xs).
Proof.
  revert x; induction xs as [|y ys IH]; intros x; simpl.
  - now left.
  - destruct (IH (JS.Math_max x y)) as [H|H].
    + rewrite <- H.
      destruct (Math_max_cases x y) as [[E _]|[E _]]; rewrite E; auto.
    + right. now right.
Qed.

Lemma Math_max_spread_upper (x : Q) (xs : list Q) :
  forall y, In y (x :: xs) -> y <= JS.Math_max_spread x xs.
Proof.
  revert x; induction xs as [|z zs IH]; intros x y Hy; simpl.
  - destruct Hy as [<-|[]]. apply Qle_refl.
  - assert (Hx : x <= JS.Math_max x z /\ z <= JS.Math_max x z).
    { destruct (Math_max_cases x z) as [[E H]|[E H]]; rewrite E;
        split; auto using Qle_refl. }
    destruct Hx as [Hx Hz].
    destruct Hy as [<-|[<-|Hy]].
    + apply Qle_trans with (JS.Math_max x z); [exact Hx|].
      apply IH. now left.
    + apply Qle_trans with (JS.Math_max x z); [exact Hz|].
      apply IH. now left.
    + apply IH. now right.
Qed.

Lemma or_zero_same (x : Q) : JS.or_zero x == x.
Proof.
  unfold JS.or_zero. destruct (Qeq_bool x 0) eqn:H.
  - apply Qeq_bool_iff in H. now symmetry.
  - reflexivity.
Qed.

End MaxFacts.

(** C2.  The statistics count every raw event and report the largest raw
    magnitude (a magnitude that is falsy counting as 0); both are 0 for the
    empty list; and two states with the same raw list have the same
    statistics, whatever their criteria. *)
Theorem stats_of_raw (s : State) :
  Stats.count (stats s) = List.length (earthquakes s)
  /\ (earthquakes s = [] -> stats s = Stats.mk 0 0)
  /\ (forall e, In e (earthquakes s) -> (mag e <= Stats.maxMag (stats s))%Q)
  /\ (earthquakes s <> [] ->
      In (Stats.maxMag (stats s))
         (List.map (fun e => JS.or_zero (mag e)) (earthquakes s))
      /\ exists e, In e (earthquakes s) /\ (Stats.maxMag (stats s) == mag e)%Q)
  /\ (forall s', earthquakes s' = earthquakes s -> stats s' = stats s).
Proof.
  unfold stats.
  destruct (earthquakes s) as [|e es] eqn:He; simpl.
  - split; [reflexivity|].
    split; [reflexivity|].
    split; [intros e []|].
    split; [intros H; now elim H|].
    intros s' ->. reflexivity.
  - split; [reflexivity|].
    split; [discriminate|].
    split; [|split].
    + intros x Hx.
      apply Qle_trans with (JS.or_zero (mag x)).
      * rewrite or_zero_same. apply Qle_refl.
      * apply Math_max_spread_upper.
        change (In (JS.or_zero (mag x))
                  (List.map (fun e => JS.or_zero (mag e)) (e :: es))).
        apply in_map_iff. eauto.
    + intros _.
      pose proof (Math_max_spread_In (JS.or_zero (mag e))
                    (List.map (fun e => JS.or_zero (mag e)) es)) as Hin.
      split; [exact Hin|].
      change (In (JS.Math_max_spread (JS.or_zero (mag e))
                    (List.map (fun e => JS.or_zero (mag e)) es))
                 (List.map (fun e => JS.or_zero (mag e)) (e :: es))) in Hin.
      apply in_map_iff in Hin. destruct Hin as [x [Hx Hin]].
      exists x. split; [exact Hin|]. rewrite <- Hx. apply or_zero_same.
    + intros s' ->. reflexivity.
Qed.

Lemma stats_of_raw_witness :
  Stats.count (stats Sample.loaded) = 2%nat
  /\ (mag Sample.reno <= Stats.maxMag (stats Sample.loaded))%Q
  /\ (exists e, In e (earthquakes Sample.loaded)
                /\ (Stats.maxMag (stats Sample.loaded) == mag e)%Q)
  /\ stats (setQuery "reno" (setMinMag 3 Sample.loaded)) = stats Sample.loaded.
Proof.
  destruct (stats_of_raw Sample.loaded) as (Hcount & _ & Hupper & Hmax & Hsame).
  split; [exact Hcount|].
  split; [apply Hupper; right; left; reflexivity|].
  split; [apply Hmax; discriminate|].
  apply Hsame. reflexivity.
Defined.

(** The scenario of the specification: two events, a lower bound of 3. *)
Example filtered_scenario :
  filtered (setMinMag 3 Sample.loaded) = [Sample.tokyo]
  /\ Stats.count (stats (setMinMag 3 Sample.loaded)) = 2%nat.
Proof. split; reflexivity. Qed.

Example filtered_by_place :
  filtered (setQuery "  JAPAN " Sample.loaded) = [Sample.tokyo].
Proof. reflexivity. Qed.

(** *** The style helpers *)

Section StyleFacts.

Local Open Scope Q_scope.

Lemma Qle_bool_false (a b : Q) : Qle_bool a b = false -> b < a.
Proof.
  intros H. destruct (Qlt_le_dec b a) as [Hlt|Hle]; [exact Hlt|].
  apply Qle_bool_iff in Hle. congruence.
Qed.

Lemma getRadius_nonpositive (m : Q) : m <= 0 -> getRadius m = 4.
Proof.
  intros H. unfold getRadius, JS.le.
  apply Qle_bool_iff in H. now rewrite H.
Qed.

Lemma getRadius_positive (m : Q) :
  0 < m -> getRadius m = JS.Math_max 4 (JS.Math_min 40 (m * 4)).
Proof.
  intros H. unfold getRadius, JS.le.
  destruct (Qle_bool m 0) eqn:Hb; [|reflexivity].
  apply Qle_bool_iff in Hb. exfalso. apply (Qlt_not_le _ _ H Hb).
Qed.

Lemma clamped_in_range (x : Q) :
  4 <= JS.Math_max 4 (JS.Math_min 40 x) <= 40.
Proof.
  unfold JS.Math_max, JS.Math_min. split.
  - apply Q.le_max_l.
  - apply Q.max_lub; [discriminate | apply Q.le_min_l].
Qed.

Lemma max_min_is_clamp (x : Q) :
  JS.Math_max 4 (JS.Math_min 40 x) == clamp 4 40 x.
Proof.
  unfold JS.Math_max, JS.Math_min, clamp.
  destruct (Qlt_le_dec x 4) as [Hlow|Hlow].
  - rewrite (Q.min_r 40 x) by lra. apply Q.max_l. lra.
  - destruct (Qlt_le_dec 40 x) as [Hhigh|Hhigh].
    + rewrite (Q.min_l 40 x) by lra. apply Q.max_r. lra.
    + rewrite (Q.min_r 40 x) by lra. apply Q.max_r. exact Hlow.
Qed.

End StyleFacts.

(** C3.  [getRadius] gives the fixed minimum 4 for a magnitude that is not
    positive, and otherwise four times the magnitude clamped to the interval
    from 4 to 40; so its result always lies between 4 and 40. *)
Theorem getRadius_clamped (m : Q) :
  ((m <= 0)%Q -> getRadius m = 4%Q)
  /\ ((0 < m)%Q -> (getRadius m == clamp 4 40 (m * 4))%Q)
  /\ (4 <= getRadius m <= 40)%Q.
Proof.
  split; [apply getRadius_nonpositive|].
  split.
  - intros H. rewrite (getRadius_positive m H). apply max_min_is_clamp.
  - destruct (Qlt_le_dec 0 m) as [Hpos|Hneg].
    + rewrite (getRadius_positive m Hpos). apply clamped_in_range.
    + rewrite (getRadius_nonpositive m Hneg). split; discriminate.
Qed.

Lemma getRadius_clamped_witness :
  getRadius (-1.5) = 4%Q
  /\ (getRadius 5.2 == clamp 4 40 (5.2 * 4))%Q
  /\ (getRadius 0.3 == clamp 4 40 (0.3 * 4))%Q
  /\ (getRadius 12 == clamp 4 40 (12 * 4))%Q
  /\ (4 <= getRadius 12 <= 40)%Q.
Proof.
  split; [apply (getRadius_clamped (-1.5)); discriminate|].
  split; [apply (getRadius_clamped 5.2); reflexivity|].
  split; [apply (getRadius_clamped 0.3); reflexivity|].
  split; [apply (getRadius_clamped 12); reflexivity|].
  apply (getRadius_clamped 12).
Defined.

Example getRadius_values :
  (getRadius 5.2 == 20.8)%Q /\ (getRadius 0.3 == 4)%Q /\ (getRadius 12 == 40)%Q
  /\ (getRadius 0 == 4)%Q /\ (getRadius 1 == 4)%Q /\ (getRadius 10 == 40)%Q.
Proof. repeat split. Qed.

(** C4.  [getRadius] does not decrease on positive magnitudes. *)
Theorem getRadius_monotone (m1 m2 : Q) :
  (0 < m1)%Q -> (m1 <= m2)%Q -> (getRadius m1 <= getRadius m2)%Q.
Proof.
  intros Hpos Hle.
  assert (Hpos2 : (0 < m2)%Q) by (apply Qlt_le_trans with m1; assumption).
  rewrite (getRadius_positive m1 Hpos), (getRadius_positive m2 Hpos2).
  unfold JS.Math_max, JS.Math_min.
  apply Q.max_le_compat_l, Q.min_le_compat_l.
  apply Qmult_le_compat_r; [exact Hle | discriminate].
Qed.

Lemma getRadius_monotone_witness :
  (0 < 2.1)%Q /\ (2.1 <= 5.2)%Q /\ (getRadius 2.1 <= getRadius 5.2)%Q.
Proof.
  split; [reflexivity|].
  split; [discriminate|].
  apply (getRadius_monotone 2.1 5.2); [reflexivity | discriminate].
Defined.

Ltac order_facts :=
  repeat match goal with
    | H : Qle_bool _ _ = true |- _ => apply Qle_bool_iff in H
    | H : Qle_bool _ _ = false |- _ => apply Qle_bool_false in H
    end.

Ltac pick_tier :=
  repeat match goal with
    | |- context [Qle_bool ?a ?b] => destruct (Qle_bool a b) eqn:?
    end;
  order_facts; try reflexivity; exfalso; lra.

Lemma severity_tiers_distinct : NoDup severityTiers.
Proof.
  unfold severityTiers.
  repeat (constructor; [simpl; intuition discriminate|]). constructor.
Qed.

Lemma depth_tiers_distinct : NoDup depthTiers.
Proof.
  unfold depthTiers.
  repeat (constructor; [simpl; intuition discriminate|]). constructor.
Qed.

(** C5.  In each colour mode [getColor] returns one token of that mode's
    tiers, found from the top threshold down, each threshold included in the
    tier above it: by magnitude 6, 5, 4, 3 and below; by depth 300, 100, 50
    and below (an event without a depth falls in the lowest depth tier).
    The tokens of a mode are pairwise different, so the tier is unique. *)
Theorem getColor_tiers (s : State) (e : event) :
  (colorMode s = severity ->
      ((6 <= mag e)%Q -> getColor s e = "#b02a2a"%string)
   /\ ((5 <= mag e < 6)%Q -> getColor s e = "#f97316"%string)
   /\ ((4 <= mag e < 5)%Q -> getColor s e = "#f59e0b"%string)
   /\ ((3 <= mag e < 4)%Q -> getColor s e = "#eab308"%string)
   /\ ((mag e < 3)%Q -> getColor s e = "#16a34a"%string)
   /\ In (getColor s e) severityTiers)
  /\ (colorMode s = depthMode ->
      (forall d, depth e = Some d -> (300 <= d)%Q ->
         getColor s e = "#0b3d91"%string)
   /\ (forall d, depth e = Some d -> (100 <= d < 300)%Q ->
         getColor s e = "#2b77d9"%string)
   /\ (forall d, depth e = Some d -> (50 <= d < 100)%Q ->
         getColor s e = "#5aa0f0"%string)
   /\ (forall d, depth e = Some d -> (d < 50)%Q ->
         getColor s e = "#9fd0ff"%string)
   /\ (depth e = None -> getColor s e = "#9fd0ff"%string)
   /\ In (getColor s e) depthTiers)
  /\ NoDup severityTiers /\ NoDup depthTiers.
Proof.
  split; [|split; [|split; [apply severity_tiers_distinct
                           | apply depth_tiers_distinct]]].
  - intros Hmode. unfold getColor, JS.ge. rewrite Hmode.
    repeat split; try (intros H; pick_tier).
    unfold severityTiers.
    repeat match goal with
      | |- context [Qle_bool ?a ?b] => destruct (Qle_bool a b)
      end; simpl; tauto.
  - intros Hmode. unfold getColor, JS.ge_undef, JS.ge. rewrite Hmode.
    repeat split; try (intros d Hd H; rewrite Hd; pick_tier).
    + intros Hd. now rewrite Hd.
    + unfold depthTiers. destruct (depth e) as [d|]; [|simpl; tauto].
      repeat match goal with
        | |- context [Qle_bool ?a ?b] => destruct (Qle_bool a b)
        end; simpl; tauto.
Qed.

Lemma getColor_tiers_witness :
  let six := mkEvent None 6 "Kermadec Islands" None None (Some 300%Q) None None None in
  getColor (setColorMode severity initial) six = "#b02a2a"%string
  /\ getColor (setColorMode severity initial) Sample.tokyo = "#f97316"%string
  /\ getColor (setColorMode severity initial) Sample.reno = "#16a34a"%string
  /\ getColor (setColorMode depthMode initial) six = "#0b3d91"%string
  /\ getColor (setColorMode depthMode initial) Sample.tokyo = "#9fd0ff"%string.
Proof.
  intros six.
  destruct (getColor_tiers (setColorMode severity initial) six)
    as [Hsix _].
  destruct (getColor_tiers (setColorMode severity initial) Sample.tokyo)
    as [Htokyo _].
  destruct (getColor_tiers (setColorMode severity initial) Sample.reno)
    as [Hreno _].
  destruct (getColor_tiers (setColorMode depthMode initial) six)
    as [_ [Hdeep _]].
  destruct (getColor_tiers (setColorMode depthMode initial) Sample.tokyo)
    as [_ [Hshallow _]].
  split; [apply (Hsix eq_refl); discriminate|].
  split; [apply (Htokyo eq_refl); split; [discriminate|reflexivity]|].
  split; [apply (Hreno eq_refl); reflexivity|].
  split; [apply (Hdeep eq_refl) with (d := 300%Q);
          [reflexivity|discriminate]|].
  apply (Hshallow eq_refl) with (d := 35%Q); reflexivity.
Defined.

(** *** The parser *)

Lemma parseFeature_returns (f : feature) (coords : list Q) (props : properties) :
  f_coordinates f = Some coords ->
  f_properties f = Some props ->
  parseFeature f =
    Returned {| id := f_id f;
                mag := JS.nullish (p_mag props) 0%Q;
                place := JS.nullish (p_place props) "Unknown location"%string;
                time := p_time props;
                url := p_url props;
                depth := nth_error coords 2;
                lat := nth_error coords 1;
                lon := nth_error coords 0;
                type := p_type props |}.
Proof. intros Hc Hp. unfold parseFeature. now rewrite Hc, Hp. Qed.

(** C6.  A feature whose geometry and properties are there is parsed into an
    event; when its [mag] is missing the event has magnitude 0, and then no
    filtered list whose lower bound is positive contains it; when its
    [place] is missing the event's place is "Unknown location". *)
Theorem parsed_defaults (f : feature) (coords : list Q) (props : properties) :
  f_coordinates f = Some coords ->
  f_properties f = Some props ->
  exists e,
    parseFeature f = Returned e
    /\ (p_mag props = None ->
          mag e = 0%Q
          /\ forall s, (0 < minMag s)%Q -> ~ In e (filtered s))
    /\ (p_place props = None -> place e = "Unknown location"%string).
Proof.
  intros Hc Hp. eexists. split; [apply (parseFeature_returns f coords props Hc Hp)|].
  cbn [mag place]. split.
  - intros Hmag. rewrite Hmag. split; [reflexivity|].
    intros s Hmin Hin.
    apply In_filtered in Hin. destruct Hin as [_ [Hlo _]].
    cbn [mag JS.nullish] in Hlo. apply (Qlt_not_le _ _ Hmin Hlo).
  - intros Hplace. now rewrite Hplace.
Qed.

Lemma parsed_defaults_witness :
  exists e,
    parseFeature Sample.bare = Returned e
    /\ mag e = 0%Q
    /\ place e = "Unknown location"%string
    /\ ~ In e (filtered (setMinMag 0.1 (setEarthquakes [e; Sample.tokyo] initial))).
Proof.
  destruct (parsed_defaults Sample.bare [-150.1; 61.2; 12.5]%Q
              (mkProperties None None (Some 1700000200000%Z) None None)
              eq_refl eq_refl) as [e [Hparse [Hmag Hplace]]].
  exists e. split; [exact Hparse|].
  destruct (Hmag eq_refl) as [Hzero Hout].
  split; [exact Hzero|].
  split; [exact (Hplace eq_refl)|].
  apply Hout. reflexivity.
Defined.

Example parse_bare :
  mapFeatures [Sample.bare; Sample.full] =
    Returned [mkEvent (Some "ak0240000000"%string) 0 "Unknown location"
                (Some 1700000200000%Z) None (Some 12.5%Q) (Some 61.2%Q)
                (Some (-150.1)%Q) None;
              mkEvent (Some "us7000aaaa"%string) 5.2 "Tokyo, Japan"
                (Some 1700000000000%Z) None (Some 35%Q) (Some 35.6%Q)
                (Some 139.7%Q) (Some "earthquake"%string)].
Proof. reflexivity. Qed.

(** *** One fetch attempt *)

(** C7.  A fetch attempt starts by clearing the error and leaves it cleared
    unless the attempt fails; a failing attempt records a message and leaves
    the raw list as it was, so the events of an earlier successful fetch
    stay. *)
Theorem fetch_error_lifecycle (s : State) (r : reply) :
  (error (fetchStart s) = None /\ earthquakes (fetchStart s) = earthquakes s)
  /\ (forall features, tryBlock r = Returned features ->
        error (fetchSettle r s) = error s
        /\ error (fetchData r s) = None
        /\ earthquakes (fetchData r s) = features)
  /\ (forall message, tryBlock r = Thrown message ->
        error (fetchSettle r s) = Some (JS.or_string message "Unknown error")
        /\ error (fetchData r s) = Some (JS.or_string message "Unknown error")
        /\ earthquakes (fetchSettle r s) = earthquakes s
        /\ earthquakes (fetchData r s) = earthquakes s)
  /\ (error (fetchData r s) <> None <-> exists message, tryBlock r = Thrown message).
Proof.
  split; [split; reflexivity|].
  split; [|split].
  - intros features H. unfold fetchData, fetchSettle. rewrite H.
    repeat split.
  - intros message H. unfold fetchData, fetchSettle. rewrite H.
    repeat split.
  - unfold fetchData, fetchSettle.
    destruct (tryBlock r) as [features|message]; cbn [error setLoading setEarthquakes setError].
    + split; [intros H; now elim H | intros [message H]; discriminate].
    + split; [eauto | discriminate].
Qed.

Lemma fetch_error_lifecycle_witness :
  let before := fetchData Sample.goodReply initial in
  earthquakes before <> []
  /\ error before = None
  /\ error (fetchData Sample.badStatus before) = Some "Failed to fetch earthquake data"%string
  /\ earthquakes (fetchData Sample.badStatus before) = earthquakes before
  /\ earthquakes (fetchData Sample.noFeatures before) = earthquakes before.
Proof.
  intros before.
  destruct (fetch_error_lifecycle initial Sample.goodReply)
    as (_ & Hok & _ & _).
  destruct (Hok _ eq_refl) as (_ & Hclear & Hlist).
  destruct (fetch_error_lifecycle before Sample.badStatus)
    as (_ & _ & Hfail & _).
  destruct (Hfail _ eq_refl) as (_ & Hmsg & _ & Hkept).
  destruct (fetch_error_lifecycle before Sample.noFeatures)
    as (_ & _ & Hfail' & _).
  destruct (Hfail' _ eq_refl) as (_ & _ & _ & Hkept').
  split; [unfold before; rewrite Hlist; discriminate|].
  split; [exact Hclear|].
  split; [exact Hmsg|].
  split; [exact Hkept | exact Hkept'].
Defined.

(** *** The Reset button *)

(** C8.  From any state, Reset leaves the criteria at their defaults: lower
    bound 0, upper bound 10, empty query, severity colours; it touches
    nothing else. *)
Theorem reset_restores_defaults (s : State) :
  minMag (reset s) = 0%Q
  /\ maxMag (reset s) = 10%Q
  /\ query (reset s) = EmptyString
  /\ colorMode (reset s) = severity
  /\ minMag (reset s) = minMag initial
  /\ maxMag (reset s) = maxMag initial
  /\ query (reset s) = query initial
  /\ colorMode (reset s) = colorMode initial
  /\ earthquakes (reset s) = earthquakes s
  /\ loading (reset s) = loading s
  /\ error (reset s) = error s
  /\ autoRefresh (reset s) = autoRefresh s.
Proof. repeat split. Qed.

(** *** The loading flag along the runs of the component *)

Lemma run_reachable (trace : list action) (c c' : Config) :
  reachable c -> run trace c = Some c' -> reachable c'.
Proof.
  revert c; induction trace as [|a rest IH]; intros c Hc Hrun; simpl in Hrun.
  - injection Hrun as <-. exact Hc.
  - destruct (step a c) as [c1|] eqn:Hstep; [|discriminate].
    apply (IH c1); [|exact Hrun].
    now apply reachable_step with a c.
Qed.

Lemma loading_needs_fetch (c : Config) :
  reachable c ->
  loading (ui c) = true -> (0 < inFlight c)%nat \/ started c = 0%nat.
Proof.
  induction 1 as [|a c c' Hc IH Hstep].
  - intros _. right. reflexivity.
  - destruct a; simpl in Hstep;
      try (injection Hstep as <-; exact IH).
    + injection Hstep as <-. intros _. left. simpl. lia.
    + destruct (inFlight c) as [|n]; [discriminate|].
      injection Hstep as <-. simpl. discriminate.
Qed.

Lemma outstanding_were_started (c : Config) :
  reachable c -> (inFlight c <= started c)%nat.
Proof.
  induction 1 as [|a c c' Hc IH Hstep].
  - simpl. lia.
  - destruct a; simpl in Hstep;
      try (injection Hstep as <-; exact IH).
    + injection Hstep as <-. simpl. lia.
    + destruct (inFlight c) as [|n] eqn:Hn; [discriminate|].
      injection Hstep as <-. simpl. lia.
Qed.

(** C10, as stated, fails: the component is mounted with the loading flag
    already set, before any call of [fetchData]. *)
Lemma loading_before_first_fetch :
  reachable mounted
  /\ inFlight mounted = 0%nat
  /\ started mounted = 0%nat
  /\ loading (ui mounted) = true
  /\ ~ (forall c, reachable c -> loading (ui c) = true -> (0 < inFlight c)%nat).
Proof.
  split; [constructor|].
  repeat (split; [reflexivity|]).
  intros H. specialize (H mounted reachable_mounted eq_refl).
  simpl in H. lia.
Qed.

(** C10, amended.  In every reachable configuration in which some call of
    [fetchData] has been started, the loading flag is set only while a call
    is in flight; before the first call the flag is set, as [useState(true)]
    leaves it.  A call sets the flag when it starts and clears it when it
    ends, whether it succeeds or fails, and both steps can always be
    taken. *)
Theorem loading_only_in_flight_after_first_fetch :
  (forall c, reachable c -> loading (ui c) = true ->
     (0 < inFlight c)%nat \/ started c = 0%nat)
  /\ (forall c, reachable c -> (0 < started c)%nat -> (inFlight c = 0)%nat ->
        loading (ui c) = false)
  /\ (loading (ui mounted) = true /\ started mounted = 0%nat)
  /\ (forall c, exists c',
        step Start c = Some c'
        /\ loading (ui c') = true
        /\ inFlight c' = S (inFlight c)
        /\ started c' = S (started c))
  /\ (forall r c, (0 < inFlight c)%nat -> exists c',
        step (Settle r) c = Some c'
        /\ loading (ui c') = false
        /\ S (inFlight c') = inFlight c).
Proof.
  split; [exact loading_needs_fetch|].
  split; [|split; [split; reflexivity|split]].
  - intros c Hc Hstarted Hnone.
    destruct (loading (ui c)) eqn:Hl; [|reflexivity].
    destruct (loading_needs_fetch c Hc Hl); lia.
  - intros c. eexists. split; [reflexivity|]. repeat split.
  - intros r c Hpos. unfold step.
    destruct (inFlight c) as [|n]; [lia|].
    eexists. split; [reflexivity|]. split; reflexivity.
Qed.

Lemma loading_only_in_flight_after_first_fetch_witness :
  reachable Sample.settled
  /\ started Sample.settled = 1%nat
  /\ inFlight Sample.settled = 0%nat
  /\ loading (ui Sample.settled) = false
  /\ filtered (ui Sample.settled) = earthquakes (ui Sample.settled).
Proof.
  assert (Hc : reachable Sample.settled).
  { apply (run_reachable Sample.firstFetch mounted);
      [constructor | reflexivity]. }
  destruct loading_only_in_flight_after_first_fetch as (_ & Hidle & _).
  split; [exact Hc|].
  split; [reflexivity|].
  split; [reflexivity|].
  split; [|reflexivity].
  apply Hidle; [exact Hc | simpl; lia | reflexivity].
Defined.

(** ** Further properties *)

Import View Notions.

(** *** The parser on whole documents *)

Lemma readableb_readable (f : feature) : readableb f = true <-> readable f.
Proof.
  unfold readableb, readable.
  destruct (f_coordinates f), (f_properties f); split;
    try discriminate; try (intros [H1 H2]; congruence).
  intros _. split; discriminate.
Qed.

Lemma parseFeature_readable (f : feature) :
  (exists e, parseFeature f = Returned e) <-> readable f.
Proof.
  unfold parseFeature, readable, member, bind.
  destruct (f_coordinates f) as [cs|], (f_properties f) as [ps|]; split.
  all: try (intros [e H]; discriminate).
  all: try (intros [H1 H2]; congruence).
  - intros _. split; discriminate.
  - intros _. eexists. reflexivity.
Qed.

Lemma parseFeature_id (f : feature) (e : event) :
  parseFeature f = Returned e -> id e = f_id f.
Proof.
  unfold parseFeature, member, bind.
  destruct (f_coordinates f), (f_properties f); try discriminate.
  intros H. injection H as <-. reflexivity.
Qed.

Lemma mapFeatures_Returned (fs : list feature) (es : list event) :
  mapFeatures fs = Returned es <->
  Forall2 (fun f e => parseFeature f = Returned e) fs es.
Proof.
  revert es; induction fs as [|f fs IH]; intros es; simpl.
  - split.
    + intros H. injection H as <-. constructor.
    + intros H. inversion H. reflexivity.
  - unfold bind. destruct (parseFeature f) as [e|m] eqn:He.
    + destruct (mapFeatures fs) as [es'|m] eqn:Hes.
      * split.
        -- intros H. injection H as <-. constructor; [exact He|].
           now apply IH.
        -- intros H. inversion H as [|f0 e0 fs0 es0 H1 H2]; subst.
           apply IH in H2. congruence.
      * split; [discriminate|].
        intros H. inversion H as [|f0 e0 fs0 es0 H1 H2]; subst.
        apply IH in H2. discriminate.
    + split; [discriminate|].
      intros H. inversion H; subst. congruence.
Qed.

Lemma mapFeatures_readable (fs : list feature) :
  (exists es, mapFeatures fs = Returned es) <-> Forall readable fs.
Proof.
  induction fs as [|f fs IH]; simpl.
  - split; [constructor | intros _; eexists; reflexivity].
  - unfold bind. split.
    + intros [es H].
      destruct (parseFeature f) as [e|m] eqn:He; [|discriminate].
      destruct (mapFeatures fs) as [es'|m] eqn:Hes; [|discriminate].
      constructor.
      * apply parseFeature_readable. eauto.
      * apply IH. eauto.
    + intros H. inversion H as [|f0 fs0 Hf Hfs]; subst.
      apply parseFeature_readable in Hf. destruct Hf as [e He].
      apply IH in Hfs. destruct Hfs as [es Hes].
      rewrite He, Hes. eauto.
Qed.

Lemma outcome_cases {A : Type} (o : outcome A) :
  (exists a, o = Returned a) \/ (exists m, o = Thrown m).
Proof. destruct o; eauto. Qed.

(** X1.  The map over the features is all or nothing: it gives a list
    exactly when every feature has its coordinate array and its properties;
    the list then has one event per feature, in the order of the features
    and with their ids; a single feature lacking either makes it throw. *)
Theorem mapFeatures_all_or_nothing (fs : list feature) :
  ((exists es, mapFeatures fs = Returned es) <-> Forall readable fs)
  /\ ((exists m, mapFeatures fs = Thrown m) <-> Exists (fun f => ~ readable f) fs)
  /\ (forall es, mapFeatures fs = Returned es ->
        List.length es = List.length fs
        /\ List.map id es = List.map f_id fs
        /\ Forall2 (fun f e => parseFeature f = Returned e) fs es).
Proof.
  split; [apply mapFeatures_readable|]. split.
  - pose proof (mapFeatures_readable fs) as Hr. split.
    + intros [m Hm]. apply neg_Forall_Exists_neg.
      * intros f. destruct (readableb f) eqn:Hb.
        -- left. now apply readableb_readable.
        -- right. intros H. apply readableb_readable in H. congruence.
      * intros Hall. apply Hr in Hall. destruct Hall as [es Hes]. congruence.
    + intros Hex. destruct (outcome_cases (mapFeatures fs)) as [Hes|Hm]; [|exact Hm].
      exfalso. apply Hr in Hes. apply Exists_exists in Hex.
      destruct Hex as [f [Hin Hnot]]. apply Hnot.
      rewrite Forall_forall in Hes. now apply Hes.
  - intros es H. apply mapFeatures_Returned in H.
    induction H as [|f e fs es Hfe Hrest IH]; simpl.
    + repeat split. constructor.
    + destruct IH as (Hlen & Hids & Hall).
      split; [now rewrite Hlen|].
      split; [rewrite Hids, (parseFeature_id f e Hfe); reflexivity|].
      constructor; assumption.
Qed.

Lemma mapFeatures_all_or_nothing_witness :
  exists es,
    mapFeatures [Sample.bare; Sample.full] = Returned es
    /\ List.length es = 2%nat
    /\ List.map id es = [f_id Sample.bare; f_id Sample.full]
    /\ exists m, mapFeatures [Sample.full; Cases.broken; Sample.bare] = Thrown m.
Proof.
  destruct (mapFeatures_all_or_nothing [Sample.bare; Sample.full])
    as (_ & _ & Hshape).
  destruct (mapFeatures_all_or_nothing [Sample.full; Cases.broken; Sample.bare])
    as (_ & Hthrow & _).
  eexists. split; [reflexivity|].
  destruct (Hshape _ eq_refl) as (Hlen & Hids & _).
  split; [exact Hlen|]. split; [exact Hids|].
  apply Hthrow. right. left. intros [_ H]. now apply H.
Defined.

Lemma tryBlock_Returned (r : reply) (es : list event) :
  tryBlock r = Returned es <->
  exists fs, r = Replied true (Json (Some fs)) /\ mapFeatures fs = Returned es.
Proof.
  split.
  - destruct r as [m|[|] [m|[fs|]]]; simpl; try discriminate.
    intros H. exists fs. split; [reflexivity|exact H].
  - intros [fs [-> H]]. exact H.
Qed.

(** X2.  The [try] block ends well for exactly one kind of reply: a
    response with [ok] set whose body is a JSON document with a [features]
    array all of whose features are readable.  A rejected request, a status
    that is not ok, a body that is not JSON, a missing [features] member and
    an unreadable feature all end in the [catch] branch. *)
Theorem tryBlock_succeeds_iff (r : reply) :
  ((exists es, tryBlock r = Returned es) <->
   exists fs, r = Replied true (Json (Some fs)) /\ Forall readable fs)
  /\ ((exists m, tryBlock r = Thrown m) <->
      ~ exists fs, r = Replied true (Json (Some fs)) /\ Forall readable fs).
Proof.
  assert (Hok : (exists es, tryBlock r = Returned es) <->
                exists fs, r = Replied true (Json (Some fs)) /\ Forall readable fs).
  { split.
    - intros [es H]. apply tryBlock_Returned in H. destruct H as [fs [Hr Hm]].
      exists fs. split; [exact Hr|]. apply mapFeatures_readable. eauto.
    - intros [fs [Hr Hall]]. apply mapFeatures_readable in Hall.
      destruct Hall as [es Hes]. exists es. apply tryBlock_Returned. eauto. }
  split; [exact Hok|]. split.
  - intros [m Hm] Hgood. apply Hok in Hgood. destruct Hgood as [es Hes]. congruence.
  - intros Hbad. destruct (outcome_cases (tryBlock r)) as [Hes|Hm]; [|exact Hm].
    exfalso. apply Hbad, Hok, Hes.
Qed.

Lemma fetchData_failed (s : State) (r : reply) (m : string) :
  tryBlock r = Thrown m ->
  earthquakes (fetchData r s) = earthquakes s
  /\ error (fetchData r s) = Some (JS.or_string m "Unknown error")
  /\ loading (fetchData r s) = false.
Proof. intros H. unfold fetchData, fetchSettle. rewrite H. repeat split. Qed.

Lemma fetchData_succeeded (s : State) (r : reply) (es : list event) :
  tryBlock r = Returned es ->
  earthquakes (fetchData r s) = es
  /\ error (fetchData r s) = None
  /\ loading (fetchData r s) = false.
Proof. intros H. unfold fetchData, fetchSettle. rewrite H. repeat split. Qed.

(** X3.  One unreadable feature anywhere in the document makes the whole
    attempt fail: none of the other features is taken over, the raw list
    stays what it was, an error is recorded and the loading flag is
    cleared. *)
Theorem unreadable_feature_fails_fetch (s : State) (fs : list feature) (f : feature) :
  In f fs -> ~ readable f ->
  earthquakes (fetchData (Replied true (Json (Some fs))) s) = earthquakes s
  /\ error (fetchData (Replied true (Json (Some fs))) s) <> None
  /\ loading (fetchData (Replied true (Json (Some fs))) s) = false.
Proof.
  intros Hin Hnot.
  destruct (outcome_cases (tryBlock (Replied true (Json (Some fs))))) as [[es H]|[m H]].
  - exfalso. apply tryBlock_Returned in H. destruct H as [fs' [Hr Hm]].
    injection Hr as <-.
    assert (Hall : Forall readable fs) by (apply mapFeatures_readable; eauto).
    rewrite Forall_forall in Hall. now apply Hnot, Hall.
  - destruct (fetchData_failed s _ m H) as (He & Hm & Hl).
    split; [exact He|]. split; [rewrite Hm; discriminate|exact Hl].
Qed.

Lemma unreadable_feature_fails_fetch_witness :
  earthquakes (fetchData Cases.mixedReply Sample.loaded) = [Sample.tokyo; Sample.reno]
  /\ error (fetchData Cases.mixedReply Sample.loaded) <> None
  /\ loading (fetchData Cases.mixedReply Sample.loaded) = false.
Proof.
  apply (unreadable_feature_fails_fetch Sample.loaded
           [Sample.full; Cases.broken; Sample.bare] Cases.broken).
  - right. left. reflexivity.
  - intros [_ H]. now apply H.
Defined.

(** X4.  After a successful attempt the raw list has one event per feature
    of the document, with the features' ids in their order, and the count
    of the statistics is the number of features, whatever was loaded
    before. *)
Theorem fetched_count_is_feature_count (s : State) (fs : list feature) :
  Forall readable fs ->
  List.length (earthquakes (fetchData (Replied true (Json (Some fs))) s)) = List.length fs
  /\ List.map id (earthquakes (fetchData (Replied true (Json (Some fs))) s)) = List.map f_id fs
  /\ Stats.count (stats (fetchData (Replied true (Json (Some fs))) s)) = List.length fs.
Proof.
  intros Hall. apply mapFeatures_readable in Hall. destruct Hall as [es Hes].
  assert (Htry : tryBlock (Replied true (Json (Some fs))) = Returned es) by exact Hes.
  destruct (fetchData_succeeded s _ es Htry) as (He & _ & _).
  rewrite He.
  apply mapFeatures_Returned in Hes.
  assert (Hlen : List.length es = List.length fs).
  { clear -Hes. induction Hes; simpl; congruence. }
  assert (Hids : List.map id es = List.map f_id fs).
  { clear -Hes. induction Hes as [|f e fs es Hfe _ IH]; simpl; [reflexivity|].
    now rewrite IH, (parseFeature_id f e Hfe). }
  split; [exact Hlen|]. split; [exact Hids|].
  unfold stats. rewrite He.
  destruct es; simpl in *; [now rewrite <- Hlen | exact Hlen].
Qed.

Lemma fetched_count_is_feature_count_witness :
  Stats.count (stats (fetchData Cases.twoReply Cases.three)) = 2%nat
  /\ List.map id (earthquakes (fetchData Cases.twoReply Cases.three))
     = [f_id Sample.bare; f_id Sample.full].
Proof.
  destruct (fetched_count_is_feature_count Cases.three [Sample.bare; Sample.full])
    as (_ & Hids & Hcount).
  - repeat constructor; discriminate.
  - split; [exact Hcount | exact Hids].
Defined.

(** *** The error message and its banner *)

Lemma or_string_not_empty (m d : string) :
  d <> EmptyString -> JS.or_string m d <> EmptyString.
Proof. intros Hd. destruct m; simpl; [exact Hd | discriminate]. Qed.

Lemma error_shown_settle (r : reply) (s : State) :
  errorBanner s = error s -> errorBanner (fetchSettle r s) = error (fetchSettle r s).
Proof.
  intros H. unfold fetchSettle, errorBanner in *.
  destruct (tryBlock r) as [es|m]; cbn [error setLoading setEarthquakes setError].
  - exact H.
  - destruct m; reflexivity.
Qed.

Lemma error_shown_invariant (c : Config) :
  reachable c -> errorBanner (ui c) = error (ui c).
Proof.
  induction 1 as [|a c c' Hc IH Hstep].
  - reflexivity.
  - destruct a; simpl in Hstep;
      try (injection Hstep as <-; exact IH).
    + injection Hstep as <-. reflexivity.
    + destruct (inFlight c); [discriminate|].
      injection Hstep as <-. now apply error_shown_settle.
Qed.

(** X5.  The message a failed attempt records is never the empty string (an
    error without message is recorded as "Unknown error"); hence in every
    reachable state the banner shows exactly the recorded error: it is there
    whenever an error is set and absent whenever none is. *)
Theorem error_banner_shows_every_error :
  (forall r s m, error (fetchData r s) = Some m -> m <> EmptyString)
  /\ (forall c, reachable c -> errorBanner (ui c) = error (ui c))
  /\ (forall c, reachable c -> (errorBanner (ui c) <> None <-> error (ui c) <> None)).
Proof.
  split; [|split].
  - intros r s m. unfold fetchData, fetchSettle.
    destruct (tryBlock r) as [es|msg]; cbn [error setLoading setEarthquakes setError fetchStart].
    + discriminate.
    + intros H. injection H as <-. apply or_string_not_empty. discriminate.
  - exact error_shown_invariant.
  - intros c Hc. now rewrite (error_shown_invariant c Hc).
Qed.

Lemma error_banner_shows_every_error_witness :
  error (fetchData (Rejected "") initial) = Some "Unknown error"%string
  /\ "Unknown error"%string <> EmptyString
  /\ errorBanner (ui Sample.settled) = error (ui Sample.settled).
Proof.
  destruct error_banner_shows_every_error as (Hmsg & Hshown & _).
  split; [reflexivity|].
  split; [apply (Hmsg (Rejected "") initial); reflexivity|].
  apply Hshown.
  apply (run_reachable Sample.firstFetch mounted); [constructor | reflexivity].
Defined.

(** *** Who writes which cell *)

(** X6.  The steps of [fetchData] never touch the criteria or the
    auto-refresh flag, and the controls never touch the raw list, the
    loading flag, the error or the bookkeeping of outstanding calls; so a
    control changes neither the statistics nor what a reply will do. *)
Theorem cells_have_one_writer (a : action) (c c' : Config) :
  step a c = Some c' ->
  (isFetchStep a = true ->
     criteria (ui c') = criteria (ui c)
     /\ App.autoRefresh (ui c') = App.autoRefresh (ui c))
  /\ (isFetchStep a = false ->
        fetched (ui c') = fetched (ui c)
        /\ stats (ui c') = stats (ui c)
        /\ inFlight c' = inFlight c
        /\ started c' = started c).
Proof.
  intros Hstep. destruct a; simpl in Hstep.
  2: { destruct (inFlight c); [discriminate|]. injection Hstep as <-.
       split; [intros _|discriminate].
       unfold fetchSettle. destruct (tryBlock r); split; reflexivity. }
  all: injection Hstep as <-.
  all: split; [try discriminate | try discriminate].
  all: try (intros _; repeat split).
Qed.

Lemma cells_have_one_writer_witness :
  let c := {| ui := setMinMag 3 (fetchStart initial); inFlight := 1; started := 1 |} in
  let c1 := {| ui := fetchSettle Sample.goodReply (ui c); inFlight := 0; started := 1 |} in
  let c2 := onUi (setQuery "japan") c1 in
  criteria (ui c1) = (3%Q, 10%Q, EmptyString, severity)
  /\ stats (ui c2) = stats (ui c1).
Proof.
  intros c c1 c2.
  destruct (cells_have_one_writer (Settle Sample.goodReply) c c1 eq_refl)
    as [Hfetch _].
  destruct (cells_have_one_writer (ChangeQuery "japan") c1 c2 eq_refl)
    as [_ Hcontrol].
  destruct (Hfetch eq_refl) as [Hcrit _].
  destruct (Hcontrol eq_refl) as (_ & Hstats & _).
  split; [rewrite Hcrit; reflexivity | exact Hstats].
Defined.

(** *** Overlapping attempts *)

(** X7.  Nothing keeps two attempts apart.  When a reply arrives while
    another call is still outstanding, the loading flag is cleared although
    a fetch is in flight; and of two overlapping successful attempts the
    reply that arrives last decides the raw list, whichever call was made
    first. *)
Theorem overlapping_attempts (c : Config) (r1 r2 : reply) :
  (forall c', (2 <= inFlight c)%nat -> step (Settle r1) c = Some c' ->
     loading (ui c') = false /\ (0 < inFlight c')%nat)
  /\ (exists c', run [Start; Start; Settle r1] c = Some c'
        /\ loading (ui c') = false /\ (0 < inFlight c')%nat)
  /\ (forall es1 es2, tryBlock r1 = Returned es1 -> tryBlock r2 = Returned es2 ->
        exists c', run [Start; Start; Settle r1; Settle r2] c = Some c'
                   /\ earthquakes (ui c') = es2)
  /\ (forall es1 m2, tryBlock r1 = Returned es1 -> tryBlock r2 = Thrown m2 ->
        exists c', run [Start; Start; Settle r1; Settle r2] c = Some c'
                   /\ earthquakes (ui c') = es1
                   /\ error (ui c') <> None).
Proof.
  split; [|split; [|split]].
  - intros c' Htwo Hstep. simpl in Hstep.
    destruct (inFlight c) as [|[|n]]; try lia.
    injection Hstep as <-. simpl. split; [reflexivity|lia].
  - eexists. split; [reflexivity|]. simpl. split; [reflexivity|lia].
  - intros es1 es2 H1 H2. eexists. split; [reflexivity|].
    simpl. unfold fetchSettle. now rewrite H1, H2.
  - intros es1 m2 H1 H2. eexists. split; [reflexivity|].
    simpl. unfold fetchSettle. rewrite H1, H2. split; [reflexivity|discriminate].
Qed.

Lemma overlapping_attempts_witness :
  exists c',
    run [Start; Start; Settle Cases.twoReply; Settle Sample.goodReply] mounted = Some c'
    /\ List.length (earthquakes (ui c')) = 1%nat.
Proof.
  destruct (overlapping_attempts mounted Cases.twoReply Sample.goodReply)
    as (_ & _ & Hlast & _).
  destruct (Hlast _ _ eq_refl eq_refl) as [c' [Hrun Hes]].
  exists c'. split; [exact Hrun|]. rewrite Hes. reflexivity.
Defined.

(** *** More on the filter *)

Section FilterFacts.

Local Open Scope string_scope.

Lemma append_assoc' (a b c : string) : (a ++ b) ++ c = a ++ b ++ c.
Proof. induction a as [|x a IH]; simpl; [reflexivity | now rewrite IH]. Qed.

Lemma contains_trans (s q1 q2 : string) :
  contains s q1 -> contains q1 q2 -> contains s q2.
Proof.
  intros [a [b Hs]] [c [d Hq]]. exists (a ++ c), (d ++ b).
  rewrite Hs, Hq. now rewrite !append_assoc'.
Qed.

Lemma contains_in_empty (q : string) : contains "" q -> q = "".
Proof.
  intros [a [b H]]. destruct a; [|discriminate].
  destruct q; [reflexivity | discriminate].
Qed.

Lemma filter_length_le {A : Type} (p : A -> bool) (l : list A) :
  (List.length (filter p l) <= List.length l)%nat.
Proof. induction l as [|x l IH]; simpl; [lia|]. destruct (p x); simpl; lia. Qed.

Lemma trimStart_white (s : string) : allWhiteSpace s -> JS.trimStart s = "".
Proof.
  unfold allWhiteSpace. induction s as [|c s IH]; simpl; intros H; [reflexivity|].
  inversion H as [|c0 l Hc Hl]; subst. rewrite Hc. now apply IH.
Qed.

Lemma white_lower (c : ascii) : JS.isWhiteSpace (JS.lowerChar c) = JS.isWhiteSpace c.
Proof. destruct c as [[] [] [] [] [] [] [] []]; vm_compute; reflexivity. Qed.

Lemma trimStart_lower (s : string) :
  JS.toLowerCase (JS.trimStart s) = JS.trimStart (JS.toLowerCase s).
Proof.
  induction s as [|c s IH]; [reflexivity|].
  cbn [JS.trimStart JS.toLowerCase]. rewrite white_lower.
  destruct (JS.isWhiteSpace c); [exact IH | reflexivity].
Qed.

Lemma trimEnd_lower (s : string) :
  JS.toLowerCase (JS.trimEnd s) = JS.trimEnd (JS.toLowerCase s).
Proof.
  induction s as [|c s IH]; [reflexivity|].
  cbn [JS.trimEnd JS.toLowerCase]. rewrite <- IH, white_lower.
  destruct (JS.trimEnd s); cbn [JS.toLowerCase]; [|reflexivity].
  destruct (JS.isWhiteSpace c); reflexivity.
Qed.

Lemma trim_lower (s : string) :
  JS.toLowerCase (JS.trim s) = JS.trim (JS.toLowerCase s).
Proof. unfold JS.trim. now rewrite trimEnd_lower, trimStart_lower. Qed.

End FilterFacts.

Lemma stats_count (s : State) : Stats.count (stats s) = List.length (earthquakes s).
Proof. unfold stats. destruct (earthquakes s); reflexivity. Qed.

Lemma keeps_by_needle (s1 s2 : State) (e : event) :
  (minMag s2 <= minMag s1)%Q -> (maxMag s1 <= maxMag s2)%Q ->
  contains (needle s1) (needle s2) ->
  keepsb s1 e = true -> keepsb s2 e = true.
Proof.
  intros Hlo Hhi Hq H. apply keepsb_keeps in H. apply keepsb_keeps.
  destruct H as (H1 & H2 & H3). split; [|split].
  - now apply Qle_trans with (minMag s1).
  - now apply Qle_trans with (maxMag s1).
  - destruct H3 as [Hempty|Hin].
    + left. rewrite Hempty in Hq. now apply contains_in_empty.
    + right. now apply contains_trans with (needle s1).
Qed.

(** X8.  Under the default criteria, those of the first render and of Reset,
    the filtered list is the raw list without the events whose magnitude is
    below 0 or above 10: an event of negative magnitude is not shown until
    the lower bound is moved below zero. *)
Theorem default_criteria_hide_negative (s : State) :
  (forall e, In e (filtered (reset s)) <->
             In e (earthquakes s) /\ (0 <= mag e <= 10)%Q)
  /\ (forall e, (mag e < 0)%Q -> ~ In e (filtered (reset s))).
Proof.
  assert (H : forall e, In e (filtered (reset s)) <->
                        In e (earthquakes s) /\ (0 <= mag e <= 10)%Q).
  { intros e. rewrite In_filtered. unfold keeps, needle. cbn.
    split.
    - intros (Hin & Hlo & Hhi & _). auto.
    - intros (Hin & Hlo & Hhi). auto. }
  split; [exact H|].
  intros e Hneg Hin. apply H in Hin. destruct Hin as (_ & Hlo & _).
  apply (Qlt_not_le _ _ Hneg Hlo).
Qed.

Lemma default_criteria_hide_negative_witness :
  ~ In Cases.tiny (filtered (reset Cases.three))
  /\ In Cases.tiny (filtered (setMinMag (-1) (reset Cases.three))).
Proof.
  split.
  - apply (default_criteria_hide_negative Cases.three). reflexivity.
  - vm_compute. right. left. reflexivity.
Defined.

(** X9.  Widening the magnitude range or shortening the query to a part of
    itself only adds events: when the raw lists agree, the bounds of the
    second state enclose those of the first and the query of the second (as
    trimmed and lower-cased) occurs in that of the first, the first filtered
    list is the second with some events left out, in the same order. *)
Theorem narrower_criteria_narrower_list (s1 s2 : State) :
  earthquakes s1 = earthquakes s2 ->
  (minMag s2 <= minMag s1)%Q -> (maxMag s1 <= maxMag s2)%Q ->
  contains (needle s1) (needle s2) ->
  Subseq (filtered s1) (filtered s2)
  /\ (List.length (filtered s1) <= List.length (filtered s2))%nat.
Proof.
  intros Hraw Hlo Hhi Hq.
  assert (Hsub : Subseq (filtered s1) (filtered s2)).
  { assert (Hf : filtered s1 = filter (keepsb s1) (filter (keepsb s2) (earthquakes s2))).
    { rewrite filtered_as_one_filter, Hraw, filter_filter.
      apply filter_ext_in. intros e _.
      destruct (keepsb s1 e) eqn:H1; [|now rewrite andb_false_r].
      now rewrite (keeps_by_needle s1 s2 e Hlo Hhi Hq H1). }
    rewrite Hf, (filtered_as_one_filter s2). apply Subseq_filter. }
  split; [exact Hsub|].
  clear -Hsub. induction Hsub; simpl; lia.
Qed.

Lemma narrower_criteria_narrower_list_witness :
  Subseq (filtered (setQuery " Tokyo, J" (setMinMag 3 Cases.three)))
         (filtered (setQuery "KYO" (setMinMag (-1) Cases.three))).
Proof.
  apply (narrower_criteria_narrower_list
           (setQuery " Tokyo, J" (setMinMag 3 Cases.three))
           (setQuery "KYO" (setMinMag (-1) Cases.three))).
  - reflexivity.
  - discriminate.
  - apply Qle_refl.
  - exists "to"%string, ", j"%string. vm_compute. reflexivity.
Defined.

(** X10.  A query made of white space only is no query: the filtered list
    is then the raw list filtered by magnitude alone. *)
Theorem blank_query_filters_by_magnitude_only (s : State) :
  allWhiteSpace (query s) ->
  filtered s = filter (magInRange s) (earthquakes s).
Proof.
  intros Hw. unfold filtered, JS.trim.
  rewrite (trimStart_white _ Hw). cbn [JS.trimEnd JS.toLowerCase].
  induction (filter (magInRange s) (earthquakes s)) as [|e l IH];
    simpl; congruence.
Qed.

Lemma blank_query_filters_by_magnitude_only_witness :
  filtered (setQuery "   " (setMinMag 3 Cases.three)) = [Sample.tokyo].
Proof.
  rewrite (blank_query_filters_by_magnitude_only
             (setQuery "   " (setMinMag 3 Cases.three))).
  - reflexivity.
  - repeat constructor.
Defined.

(** X11.  The letter case of the query does not matter: two queries with
    the same lower-case form give the same filtered list. *)
Theorem query_case_is_ignored (s : State) (q1 q2 : string) :
  JS.toLowerCase q1 = JS.toLowerCase q2 ->
  filtered (setQuery q1 s) = filtered (setQuery q2 s).
Proof.
  intros H. unfold filtered. cbn [query setQuery earthquakes].
  rewrite !trim_lower, H.
  apply filter_ext. intros e.
  unfold magInRange. reflexivity.
Qed.

Lemma query_case_is_ignored_witness :
  filtered (setQuery "RENO" Cases.three) = filtered (setQuery "Reno" Cases.three)
  /\ filtered (setQuery "RENO" Cases.three) = [Sample.reno].
Proof.
  split; [|reflexivity].
  apply (query_case_is_ignored Cases.three "RENO" "Reno"). reflexivity.
Defined.

(** X12.  The number of events shown never exceeds the count in the
    statistics, and the two agree exactly when every raw event passes the
    filter. *)
Theorem shown_at_most_counted (s : State) :
  (List.length (filtered s) <= Stats.count (stats s))%nat
  /\ (List.length (filtered s) = Stats.count (stats s) <->
      forall e, In e (earthquakes s) -> keeps s e).
Proof.
  rewrite stats_count, filtered_as_one_filter.
  split; [apply filter_length_le|].
  induction (earthquakes s) as [|e l IH]; simpl.
  - split; [intros _ x [] | reflexivity].
  - destruct (keepsb s e) eqn:Hk; simpl.
    + split.
      * intros H x [<-|Hx]; [now apply keepsb_keeps|].
        apply IH; [lia | exact Hx].
      * intros H. f_equal. apply IH. intros x Hx. apply H. now right.
    + split.
      * intros H. pose proof (filter_length_le (keepsb s) l). lia.
      * intros H. assert (Hke : keeps s e) by (apply H; now left).
        apply keepsb_keeps in Hke. congruence.
Qed.

Lemma shown_at_most_counted_witness :
  (List.length (filtered Cases.three) <= 3)%nat
  /\ List.length (filtered (setMinMag (-1) Cases.three)) = 3%nat.
Proof.
  split.
  - apply (shown_at_most_counted Cases.three).
  - change 3%nat with (Stats.count (stats (setMinMag (-1) Cases.three))).
    apply (shown_at_most_counted (setMinMag (-1) Cases.three)).
    intros e He. apply keepsb_keeps.
    destruct He as [<-|[<-|[<-|[]]]]; reflexivity.
Defined.

(** *** More on the style helpers *)

Section RadiusFacts.

Local Open Scope Q_scope.

Lemma getRadius_low (m : Q) : m <= 1 -> getRadius m == 4.
Proof.
  intros H. destruct (Qlt_le_dec 0 m) as [Hpos|Hneg].
  - rewrite (getRadius_positive m Hpos), max_min_is_clamp. unfold clamp.
    destruct (Qlt_le_dec (m * 4) 4); [reflexivity|].
    destruct (Qlt_le_dec 40 (m * 4)); lra.
  - now rewrite (getRadius_nonpositive m Hneg).
Qed.

Lemma getRadius_middle (m : Q) : 1 <= m <= 10 -> getRadius m == m * 4.
Proof.
  intros [Hlo Hhi].
  rewrite (getRadius_positive m) by lra.
  rewrite max_min_is_clamp. unfold clamp.
  destruct (Qlt_le_dec (m * 4) 4); [lra|].
  destruct (Qlt_le_dec 40 (m * 4)); lra.
Qed.

Lemma getRadius_high (m : Q) : 10 <= m -> getRadius m == 40.
Proof.
  intros H.
  rewrite (getRadius_positive m) by lra.
  rewrite max_min_is_clamp. unfold clamp.
  destruct (Qlt_le_dec (m * 4) 4); [lra|].
  destruct (Qlt_le_dec 40 (m * 4)); lra.
Qed.

End RadiusFacts.

(** X13.  The radius is flat at 4 up to magnitude 1, exactly four times the
    magnitude from 1 to 10, and flat at 40 from 10 on; so it never
    decreases, on negative magnitudes too, and between 1 and 10 a larger
    magnitude always gets a strictly larger radius. *)
Theorem getRadius_shape (m1 m2 : Q) :
  ((m1 <= 1)%Q -> (getRadius m1 == 4)%Q)
  /\ ((1 <= m1 <= 10)%Q -> (getRadius m1 == m1 * 4)%Q)
  /\ ((10 <= m1)%Q -> (getRadius m1 == 40)%Q)
  /\ ((m1 <= m2)%Q -> (getRadius m1 <= getRadius m2)%Q)
  /\ ((1 <= m1)%Q -> (m1 < m2)%Q -> (m2 <= 10)%Q ->
        (getRadius m1 < getRadius m2)%Q).
Proof.
  split; [apply getRadius_low|].
  split; [apply getRadius_middle|].
  split; [apply getRadius_high|].
  split.
  - intros Hle.
    destruct (Qlt_le_dec m1 1) as [H1|H1].
    + rewrite (getRadius_low m1) by lra.
      destruct (Qlt_le_dec m2 1) as [H2|H2].
      * rewrite (getRadius_low m2) by lra. lra.
      * destruct (Qlt_le_dec m2 10) as [H3|H3].
        -- rewrite (getRadius_middle m2) by lra. lra.
        -- rewrite (getRadius_high m2) by lra. lra.
    + destruct (Qlt_le_dec m2 10) as [H3|H3].
      * rewrite (getRadius_middle m1), (getRadius_middle m2) by lra. lra.
      * rewrite (getRadius_high m2) by lra.
        destruct (Qlt_le_dec m1 10) as [H4|H4].
        -- rewrite (getRadius_middle m1) by lra. lra.
        -- rewrite (getRadius_high m1) by lra. lra.
  - intros H1 Hlt H2.
    rewrite (getRadius_middle m1), (getRadius_middle m2) by lra. lra.
Qed.

Lemma getRadius_shape_witness :
  (getRadius (-0.4) == 4)%Q
  /\ (getRadius 5.2 == 5.2 * 4)%Q
  /\ (getRadius 11 == 40)%Q
  /\ (getRadius (-0.4) <= getRadius 2.1)%Q
  /\ (getRadius 2.1 < getRadius 5.2)%Q.
Proof.
  destruct (getRadius_shape (-0.4) 2.1) as (Hlow & _ & _ & Hmono & _).
  destruct (getRadius_shape 5.2 5.2) as (_ & Hmid & _).
  destruct (getRadius_shape 11 11) as (_ & _ & Hhigh & _).
  destruct (getRadius_shape 2.1 5.2) as (_ & _ & _ & _ & Hstrict).
  split; [apply Hlow; discriminate|].
  split; [apply Hmid; split; discriminate|].
  split; [apply Hhigh; discriminate|].
  split; [apply Hmono; discriminate|].
  apply Hstrict; [discriminate | reflexivity | discriminate].
Defined.

Ltac rank_tiers :=
  repeat match goal with
    | |- context [Qle_bool ?a ?b] => destruct (Qle_bool a b) eqn:?
    end;
  order_facts;
  first [ now (vm_compute; lia) | exfalso; lra ].

(** X14.  The colour follows the size: in severity mode an event of larger
    magnitude never gets a lower tier, and in depth mode a deeper event
    never gets a lower tier; an event without depth gets the lowest one. *)
Theorem colour_tier_monotone (s : State) (e1 e2 : event) :
  (colorMode s = severity -> (mag e1 <= mag e2)%Q ->
     (tierOf severityTiers (getColor s e1) <= tierOf severityTiers (getColor s e2))%nat)
  /\ (colorMode s = depthMode ->
      forall d1 d2, depth e1 = Some d1 -> depth e2 = Some d2 -> (d1 <= d2)%Q ->
      (tierOf depthTiers (getColor s e1) <= tierOf depthTiers (getColor s e2))%nat)
  /\ (colorMode s = depthMode -> depth e1 = None ->
      tierOf depthTiers (getColor s e1) = 0%nat).
Proof.
  split; [|split].
  - intros Hmode Hle. unfold getColor, JS.ge. rewrite Hmode. rank_tiers.
  - intros Hmode d1 d2 H1 H2 Hle.
    unfold getColor, JS.ge_undef, JS.ge. rewrite Hmode, H1, H2. rank_tiers.
  - intros Hmode H1. unfold getColor, JS.ge_undef. rewrite Hmode, H1. reflexivity.
Qed.

Lemma colour_tier_monotone_witness :
  (tierOf severityTiers (getColor Cases.three Cases.tiny)
   <= tierOf severityTiers (getColor Cases.three Sample.tokyo))%nat
  /\ (tierOf depthTiers (getColor (setColorMode depthMode Cases.three) Sample.tokyo)
      <= tierOf depthTiers (getColor (setColorMode depthMode Cases.three) Cases.tiny))%nat.
Proof.
  split.
  - apply (colour_tier_monotone Cases.three Cases.tiny Sample.tokyo);
      [reflexivity | discriminate].
  - apply (colour_tier_monotone (setColorMode depthMode Cases.three)
             Sample.tokyo Cases.tiny) with (d1 := 35%Q) (d2 := 120%Q);
      [reflexivity | reflexivity | reflexivity | discriminate].
Defined.

(** *** What is drawn *)

Section ViewFacts.





End ViewFacts.



(** X16.  The map is asked to fit its bounds exactly when there is a map
    and at least one event passes the filter; the bounds are then the
    latitude and longitude of the filtered events, in their order.  For an
    event parsed from a feature, the pair is the second coordinate followed
    by the first: the feed's longitude-first order is turned around. *)
Theorem FitBounds_on_filtered (s : State) (map : bool) :
  (FitBounds map (Some (pointsForBounds s)) = None <->
   map = false \/ filtered s = [])
  /\ (forall bounds, FitBounds map (Some (pointsForBounds s)) = Some bounds ->
        bounds = List.map (fun e => (lat e, lon e)) (filtered s))
  /\ (forall f e coords, parseFeature f = Returned e ->
        f_coordinates f = Some coords -> In e (filtered s) -> map = true ->
        exists bounds,
          FitBounds map (Some (pointsForBounds s)) = Some bounds
          /\ In (nth_error coords 1, nth_error coords 0) bounds).
Proof.
  assert (Hcall : forall bounds,
             FitBounds map (Some (pointsForBounds s)) = Some bounds ->
             bounds = List.map (fun e => (lat e, lon e)) (filtered s)).
  { intros bounds. unfold FitBounds, pointsForBounds.
    destruct map; [|discriminate]. cbn [negb].
    rewrite length_map.
    destruct (Nat.eqb (List.length (filtered s)) 0); [discriminate|].
    intros H. injection H as <-. now rewrite map_map. }
  split; [|split; [exact Hcall|]].
  - unfold FitBounds, pointsForBounds. destruct map; cbn [negb].
    + rewrite length_map. destruct (filtered s) as [|e l]; simpl.
      * split; [now right | reflexivity].
      * split; [discriminate | intros [H|H]; discriminate].
    + split; [now left | reflexivity].
  - intros f e coords Hparse Hcoords Hin ->.
    destruct (FitBounds true (Some (pointsForBounds s))) as [bounds|] eqn:Hb.
    + exists bounds. split; [reflexivity|].
      rewrite (Hcall bounds eq_refl). apply in_map_iff. exists e. split; [|exact Hin].
      unfold parseFeature, member, bind in Hparse. rewrite Hcoords in Hparse.
      destruct (f_properties f); [|discriminate].
      injection Hparse as <-. reflexivity.
    + exfalso. unfold FitBounds, pointsForBounds in Hb. cbn [negb] in Hb.
      rewrite length_map in Hb.
      destruct (filtered s); [contradiction|discriminate].
Qed.

Lemma FitBounds_on_filtered_witness :
  (exists bounds,
     FitBounds true (Some (pointsForBounds (setMinMag 3 Cases.three))) = Some bounds
     /\ In (Some 35.6%Q, Some 139.7%Q) bounds)
  /\ FitBounds true (Some (pointsForBounds (setMinMag 7 Cases.three))) = None.
Proof.
  destruct (FitBounds_on_filtered (setMinMag 3 Cases.three) true)
    as (_ & _ & Hpair).
  destruct (FitBounds_on_filtered (setMinMag 7 Cases.three) true)
    as (Hnone & _).
  split.
  - apply (Hpair Sample.full Sample.tokyo [139.7; 35.6; 35]%Q);
      try reflexivity.
    left. reflexivity.
  - apply Hnone. right. reflexivity.
Defined.



(** *** Coordinates *)

Lemma nth_error_first_three {A : Type} (l : list A) :
  nth_error (firstn 3 l) 0 = nth_error l 0
  /\ nth_error (firstn 3 l) 1 = nth_error l 1
  /\ nth_error (firstn 3 l) 2 = nth_error l 2.
Proof. destruct l as [|a [|b [|c l]]]; repeat split. Qed.

(** X18.  Of the coordinate array only the first three entries count:
    features that agree on id, properties and those entries parse alike.
    A feature whose array has fewer than three entries still parses, into an
    event without depth, which the depth colouring puts in its lightest
    tier. *)
Theorem only_three_coordinates_count (f : feature) (coords : list Q) (props : properties) :
  f_coordinates f = Some coords -> f_properties f = Some props ->
  (forall g coords', f_id g = f_id f -> f_properties g = Some props ->
     f_coordinates g = Some coords' -> firstn 3 coords' = firstn 3 coords ->
     parseFeature g = parseFeature f)
  /\ exists e,
       parseFeature f = Returned e
       /\ ((List.length coords < 3)%nat ->
             depth e = None
             /\ forall s, colorMode s = depthMode -> getColor s e = "#9fd0ff"%string)
       /\ ((3 <= List.length coords)%nat ->
             exists x y z, lon e = Some x /\ lat e = Some y /\ depth e = Some z
                           /\ firstn 3 coords = [x; y; z]).
Proof.
  intros Hc Hp. split.
  - intros g coords' Hid Hgp Hgc Hfirst.
    rewrite (parseFeature_returns f coords props Hc Hp),
            (parseFeature_returns g coords' props Hgc Hgp), Hid.
    destruct (nth_error_first_three coords) as (H0 & H1 & H2).
    destruct (nth_error_first_three coords') as (H0' & H1' & H2').
    rewrite <- H0, <- H1, <- H2, <- H0', <- H1', <- H2', Hfirst.
    reflexivity.
  - eexists. split; [apply (parseFeature_returns f coords props Hc Hp)|].
    cbn [depth lat lon]. split.
    + intros Hshort.
      assert (Hd : nth_error coords 2 = None) by (apply nth_error_None; lia).
      split; [exact Hd|].
      intros s Hmode. unfold getColor, JS.ge_undef. rewrite Hmode.
      cbn [depth]. now rewrite Hd.
    + intros Hlong. destruct coords as [|x [|y [|z rest]]]; simpl in Hlong; try lia.
      exists x, y, z. repeat split.
Qed.

Lemma only_three_coordinates_count_witness :
  exists e,
    parseFeature Cases.flat = Returned e
    /\ depth e = None
    /\ getColor (setColorMode depthMode initial) e = "#9fd0ff"%string.
Proof.
  destruct (only_three_coordinates_count Cases.flat [-155.3; 19.4]%Q
              (mkProperties (Some 1.8%Q) (Some "Volcano, Hawaii"%string)
                 None None (Some "earthquake"%string))
              eq_refl eq_refl) as [_ [e (Hparse & Hshort & _)]].
  exists e. split; [exact Hparse|].
  destruct Hshort as [Hd Hcol]; [simpl; lia|].
  split; [exact Hd | apply Hcol; reflexivity].
Defined.

(** *** The auto-refresh timer *)

Section TimerFacts.

Import Timer.

Lemma cleanup_clears (t : Timers) :
  (active t = [] \/ exists h, (1 <= h)%nat /\ current t = Some h /\ active t = [h]) ->
  active (cleanup t) = [] /\ nextHandle (cleanup t) = nextHandle t.
Proof.
  intros [Hnone|[h (Hpos & Hcur & Hact)]]; unfold cleanup.
  - destruct (current t) as [[|h]|]; simpl; rewrite ?Hnone; auto.
  - rewrite Hcur. destruct h as [|h]; [lia|].
    simpl. rewrite Hact. simpl. rewrite Nat.eqb_refl. auto.
Qed.

Lemma effect_after_cleanup (v : bool) (t : Timers) :
  active t = [] -> (1 <= nextHandle t)%nat ->
  (1 <= nextHandle (effect v t))%nat
  /\ if v
     then exists h, (1 <= h)%nat /\ current (effect v t) = Some h
                    /\ active (effect v t) = [h]
     else active (effect v t) = [].
Proof.
  intros Hact Hnext. destruct v; simpl.
  - split; [lia|]. exists (nextHandle t). rewrite Hact. auto.
  - auto.
Qed.

Lemma timer_invariant (l : Life) :
  reachable l ->
  (1 <= nextHandle (timers l))%nat
  /\ if alive l && autoRefresh l
     then exists h, (1 <= h)%nat /\ current (timers l) = Some h
                    /\ active (timers l) = [h]
     else active (timers l) = [].
Proof.
  induction 1 as [|a l l' Hl IH Hstep].
  - simpl. split; [lia|]. exists 1%nat. auto.
  - destruct IH as [Hnext Hshape].
    assert (Hclean : active (cleanup (timers l)) = []
                     /\ nextHandle (cleanup (timers l)) = nextHandle (timers l)).
    { apply cleanup_clears.
      destruct (alive l && autoRefresh l); [right; exact Hshape | left; exact Hshape]. }
    destruct Hclean as [Hc1 Hc2].
    destruct a; simpl in Hstep.
    + destruct (alive l) eqn:Ha; [|discriminate]. simpl in Hstep.
      destruct (Bool.eqb v (autoRefresh l)) eqn:Hv.
      * injection Hstep as <-. rewrite Ha. auto.
      * injection Hstep as <-. cbn [alive autoRefresh timers andb].
        apply effect_after_cleanup; [exact Hc1 | lia].
    + destruct (alive l) eqn:Ha; [|discriminate]. simpl in Hstep.
      injection Hstep as <-. cbn [alive autoRefresh timers andb].
      apply effect_after_cleanup; [exact Hc1 | lia].
    + destruct (alive l) eqn:Ha; [|discriminate]. simpl in Hstep.
      injection Hstep as <-. cbn [alive autoRefresh timers andb].
      split; [lia | exact Hc1].
    + destruct (existsb (Nat.eqb h) (active (timers l))); [|discriminate].
      injection Hstep as <-. cbn [alive autoRefresh timers]. auto.
Qed.

End TimerFacts.

(** X19.  The component never holds more than one interval.  While it is
    mounted it holds one exactly when auto-refresh is on, and that one is
    the interval the reference names; after the switch is turned off, and
    after the component is unmounted, it holds none, so that no tick can
    call [fetchData] any more. *)
Theorem one_timer_at_most (l : Timer.Life) :
  Timer.reachable l ->
  (List.length (Timer.active (Timer.timers l)) <= 1)%nat
  /\ (Timer.alive l = true -> Timer.autoRefresh l = true ->
        exists h, Timer.active (Timer.timers l) = [h]
                  /\ Timer.current (Timer.timers l) = Some h
                  /\ exists l', Timer.step (Timer.Tick h) l = Some l')
  /\ (Timer.alive l = false \/ Timer.autoRefresh l = false ->
        Timer.active (Timer.timers l) = []
        /\ forall h, Timer.step (Timer.Tick h) l = None).
Proof.
  intros Hl. destruct (timer_invariant l Hl) as [_ Hshape].
  split; [|split].
  - destruct (Timer.alive l && Timer.autoRefresh l).
    + destruct Hshape as [h (_ & _ & Hact)]. rewrite Hact. simpl. lia.
    + rewrite Hshape. simpl. lia.
  - intros Ha Hf. rewrite Ha, Hf in Hshape. simpl in Hshape.
    destruct Hshape as [h (_ & Hcur & Hact)].
    exists h. split; [exact Hact|]. split; [exact Hcur|].
    unfold Timer.step. rewrite Hact. simpl. rewrite Nat.eqb_refl. simpl. eauto.
  - intros Hoff.
    assert (Hact : Timer.active (Timer.timers l) = []).
    { destruct Hoff as [H|H]; rewrite H in Hshape;
        rewrite ?andb_false_r in Hshape; exact Hshape. }
    split; [exact Hact|]. intros h. unfold Timer.step. now rewrite Hact.
Qed.

Lemma one_timer_at_most_witness :
  Timer.active (Timer.timers Cases.retoggled) = [2%nat]
  /\ (List.length (Timer.active (Timer.timers Cases.retoggled)) <= 1)%nat
  /\ Timer.step (Timer.Tick 1) Cases.switchedOff = None.
Proof.
  assert (Hoff : Timer.reachable Cases.switchedOff).
  { apply (Timer.reachable_step (Timer.Toggle false) Timer.mounted);
      [constructor | reflexivity]. }
  assert (Hon : Timer.reachable Cases.retoggled).
  { apply (Timer.reachable_step (Timer.Toggle true) Cases.switchedOff);
      [exact Hoff | reflexivity]. }
  split; [reflexivity|]. split.
  - apply (one_timer_at_most Cases.retoggled Hon).
  - destruct (one_timer_at_most Cases.switchedOff Hoff) as (_ & _ & Hnone).
    apply Hnone. right. reflexivity.
Defined.

(** *** Attempts one after the other *)

(** X20.  Receiving the same reply twice changes nothing the second time,
    and after a successful attempt nothing of the earlier raw list, loading
    flag or error is left: two states with the same criteria end up
    alike. *)
Theorem fetchData_settles (r : reply) (s s' : State) :
  fetchData r (fetchData r s) = fetchData r s
  /\ (forall es, tryBlock r = Returned es ->
        criteria s = criteria s' -> App.autoRefresh s = App.autoRefresh s' ->
        fetchData r s = fetchData r s').
Proof.
  split.
  - unfold fetchData, fetchSettle. destruct (tryBlock r); reflexivity.
  - intros es H Hcrit Hauto. unfold fetchData, fetchSettle. rewrite H.
    unfold criteria in Hcrit. destruct s, s'; simpl in *.
    injection Hcrit as -> -> -> ->. subst. reflexivity.
Qed.

Lemma fetchData_settles_witness :
  fetchData Sample.goodReply Cases.three = fetchData Sample.goodReply Sample.loaded.
Proof.
  apply (fetchData_settles Sample.goodReply Cases.three Sample.loaded)
    with (es := [Sample.tokyo]); reflexivity.
Defined.

(** X21.  Under the default criteria a feature without magnitude is shown:
    after a successful attempt from a state with the criteria of the first
    render, the event of every feature that lacks [mag] is in the filtered
    list, with magnitude 0, the smallest radius and the lowest severity
    colour. *)
Theorem missing_magnitude_shown_by_default (s : State) (fs : list feature)
        (f : feature) (props : properties) :
  criteria s = criteria initial ->
  Forall readable fs -> In f fs ->
  f_properties f = Some props -> p_mag props = None ->
  exists e,
    parseFeature f = Returned e
    /\ In e (filtered (fetchData (Replied true (Json (Some fs))) s))
    /\ mag e = 0%Q
    /\ getRadius (mag e) = 4%Q
    /\ getColor (fetchData (Replied true (Json (Some fs))) s) e = "#16a34a"%string.
Proof.
  intros Hcrit Hall Hin Hp Hmag.
  apply mapFeatures_readable in Hall. destruct Hall as [es Hes].
  assert (Htry : tryBlock (Replied true (Json (Some fs))) = Returned es) by exact Hes.
  apply mapFeatures_Returned in Hes.
  assert (He : exists e, parseFeature f = Returned e /\ In e es).
  { clear -Hes Hin. induction Hes as [|g e gs es Hge _ IH]; [contradiction|].
    destruct Hin as [->|Hin].
    - exists e. split; [exact Hge | now left].
    - destruct (IH Hin) as [e' [H1 H2]]. exists e'. split; [exact H1 | now right]. }
  destruct He as [e [Hparse Hine]]. exists e.
  assert (Hzero : mag e = 0%Q).
  { unfold parseFeature, member, bind in Hparse. rewrite Hp in Hparse.
    destruct (f_coordinates f); [|discriminate].
    injection Hparse as <-. cbn [mag]. now rewrite Hmag. }
  unfold criteria in Hcrit. injection Hcrit as Hmin Hmax Hq Hmode.
  split; [exact Hparse|]. split; [|split; [exact Hzero|split]].
  - apply In_filtered. split.
    + unfold fetchData, fetchSettle. rewrite Htry. exact Hine.
    + unfold keeps, needle, fetchData, fetchSettle. rewrite Htry.
      cbn [minMag maxMag query setLoading setEarthquakes setError fetchStart].
      rewrite Hmin, Hmax, Hq, Hzero. cbn.
      split; [discriminate|]. split; [discriminate|]. now left.
  - rewrite Hzero. reflexivity.
  - unfold getColor, fetchData, fetchSettle. rewrite Htry.
    cbn [colorMode setLoading setEarthquakes setError fetchStart].
    rewrite Hmode, Hzero. reflexivity.
Qed.

Lemma missing_magnitude_shown_by_default_witness :
  exists e,
    parseFeature Sample.bare = Returned e
    /\ In e (filtered (fetchData Cases.twoReply initial))
    /\ mag e = 0%Q.
Proof.
  destruct (missing_magnitude_shown_by_default initial
              [Sample.bare; Sample.full] Sample.bare
              (mkProperties None None (Some 1700000200000%Z) None None))
    as [e (Hparse & Hin & Hzero & _)].
  - reflexivity.
  - repeat constructor; discriminate.
  - left. reflexivity.
  - reflexivity.
  - reflexivity.
  - exists e. auto.
Defined.
